(** * mapentity.models: permissions, URLs, map-image capture and audit trail

    A shallow embedding of [mapentity/models.py].  Python values are
    modelled as follows: [str] as [string], [dict] as [gmap], tuples used
    as membership tables as lists, [int] as [Z], [float] as [R] (exact
    real arithmetic), [None]-able values as [option], and a call that may
    raise as a [result]. *)

From Stdlib Require Import ZArith List String Ascii Lia Reals Lra.
From stdpp Require Import gmap strings list fin_maps sorting pretty.

Local Open Scope string_scope.

(** ** Exceptions and results *)

Inductive exn : Type :=
  | AssertionError
  | ZeroDivisionError
  | ValueError
  | DoesNotExist
  | FieldError
  | MethodNotAllowed
  | KeyError
  | AttributeError
  | OperationalError.

Inductive result (A : Type) : Type :=
  | Ok (a : A)
  | Raise (e : exn).

Arguments Ok {A} a.
Arguments Raise {A} e.

(** Sequencing: an exception raised by the first computation skips the
    rest.  The instances give access to stdpp's [x ← r; k] notation. *)
Global Instance result_ret : MRet result := @Ok.
Global Instance result_bind : MBind result := fun A B k r =>
  match r with
  | Ok a => k a
  | Raise e => Raise e
  end.

Definition is_ok {A : Type} (r : result A) : bool :=
  match r with Ok _ => true | Raise _ => false end.

Global Instance exn_eq_dec : EqDecision exn.
Proof. solve_decision. Defined.

(** [try: body except (caught...): handler]; other exceptions propagate. *)
Definition try_except {A : Type} (body : result A) (caught : list exn)
    (handler : result A) : result A :=
  match body with
  | Ok a => Ok a
  | Raise e => if bool_decide (e ∈ caught) then handler else Raise e
  end.

(** ** Entity kinds and permissions (models.py, lines 24-57) *)

Module Entity.

Definition ENTITY_LAYER := "layer".
Definition ENTITY_LIST := "list".
Definition ENTITY_DATATABLE_LIST := "-drf-list".
Definition ENTITY_FORMAT_LIST := "format_list".
Definition ENTITY_DETAIL := "detail".
Definition ENTITY_MAPIMAGE := "mapimage".
Definition ENTITY_DOCUMENT := "document".
Definition ENTITY_MARKUP := "markup".
Definition ENTITY_CREATE := "add".
Definition ENTITY_UPDATE := "update".
Definition ENTITY_DELETE := "delete".
Definition ENTITY_UPDATE_GEOM := "update_geom".

Definition ENTITY_KINDS : list string :=
  [ ENTITY_LAYER; ENTITY_LIST; ENTITY_DATATABLE_LIST; ENTITY_FORMAT_LIST;
    ENTITY_DETAIL; ENTITY_MAPIMAGE; ENTITY_DOCUMENT; ENTITY_MARKUP;
    ENTITY_CREATE; ENTITY_UPDATE; ENTITY_DELETE; ENTITY_UPDATE_GEOM ].

Definition ENTITY_PERMISSION_CREATE := "add".
Definition ENTITY_PERMISSION_READ := "read".
Definition ENTITY_PERMISSION_UPDATE := "change".
Definition ENTITY_PERMISSION_DELETE := "delete".
Definition ENTITY_PERMISSION_EXPORT := "export".
Definition ENTITY_PERMISSION_UPDATE_GEOM := "change_geom".

Definition ENTITY_PERMISSIONS : list string :=
  [ ENTITY_PERMISSION_CREATE; ENTITY_PERMISSION_READ;
    ENTITY_PERMISSION_UPDATE; ENTITY_PERMISSION_UPDATE_GEOM;
    ENTITY_PERMISSION_DELETE; ENTITY_PERMISSION_EXPORT ].

(** The dict literal of [get_entity_kind_permission], built in source
    order (later keys are inserted last, so they are outermost). *)
Definition operations : gmap string string :=
  <[ENTITY_DOCUMENT := ENTITY_PERMISSION_EXPORT]>
  (<[ENTITY_MAPIMAGE := ENTITY_PERMISSION_EXPORT]>
  (<[ENTITY_FORMAT_LIST := ENTITY_PERMISSION_EXPORT]>
  (<[ENTITY_MARKUP := ENTITY_PERMISSION_READ]>
  (<[ENTITY_DATATABLE_LIST := ENTITY_PERMISSION_READ]>
  (<[ENTITY_LIST := ENTITY_PERMISSION_READ]>
  (<[ENTITY_LAYER := ENTITY_PERMISSION_READ]>
  (<[ENTITY_DETAIL := ENTITY_PERMISSION_READ]>
  (<[ENTITY_DELETE := ENTITY_PERMISSION_DELETE]>
  (<[ENTITY_UPDATE_GEOM := ENTITY_PERMISSION_UPDATE_GEOM]>
  (<[ENTITY_UPDATE := ENTITY_PERMISSION_UPDATE]>
  (<[ENTITY_CREATE := ENTITY_PERMISSION_CREATE]> ∅))))))))))).

(** [dict.get(key, default)] *)
Definition dict_get {V : Type} (d : gmap string V) (key : string) (dflt : V) : V :=
  default dflt (d !! key).

(** [assert cond] *)
Definition py_assert (cond : bool) : result unit :=
  if cond then Ok tt else Raise AssertionError.

(** [BaseMapEntityMixin.get_entity_kind_permission] (lines 87-105). *)
Definition get_entity_kind_permission (entity_kind : string) : result string :=
  let perm := dict_get operations entity_kind entity_kind in
  py_assert (bool_decide (perm ∈ ENTITY_PERMISSIONS)) ;;
  Ok perm.

(** The mapping as claim C1 words it: named kinds, then the read-style
    and the export-style groups. *)
Definition read_style_kinds : list string :=
  ["detail"; "layer"; "list"; "-drf-list"; "markup"].
Definition export_style_kinds : list string :=
  ["format_list"; "mapimage"; "document"].

Definition claimed_permission (kind : string) : string :=
  if bool_decide (kind = "add") then "add"
  else if bool_decide (kind = "update") then "change"
  else if bool_decide (kind = "update_geom") then "change_geom"
  else if bool_decide (kind = "delete") then "delete"
  else if bool_decide (kind ∈ read_style_kinds) then "read"
  else if bool_decide (kind ∈ export_style_kinds) then "export"
  else kind.

(** *** Lookup lemmas for the [operations] table *)

Lemma operations_lookup_kind (k : string) :
  k ∈ ENTITY_KINDS -> operations !! k = Some (claimed_permission k).
Proof.
  unfold ENTITY_KINDS. rewrite !elem_of_cons, elem_of_nil.
  intros H. repeat (destruct H as [-> | H]; [vm_compute; reflexivity |]).
  destruct H.
Qed.

Lemma operations_lookup_other (k : string) :
  k ∉ ENTITY_KINDS -> operations !! k = None.
Proof.
  unfold ENTITY_KINDS. rewrite !not_elem_of_cons. intros H.
  unfold operations. rewrite !lookup_insert_ne by (intros <-; intuition congruence).
  apply lookup_empty.
Qed.

Lemma claimed_permission_in (k : string) :
  k ∈ ENTITY_KINDS -> claimed_permission k ∈ ENTITY_PERMISSIONS.
Proof.
  unfold ENTITY_KINDS. rewrite !elem_of_cons, elem_of_nil.
  intros H.
  repeat (destruct H as [-> | H];
          [apply (bool_decide_unpack _); vm_compute; exact I |]).
  destruct H.
Qed.

Lemma get_entity_kind_permission_kind (k : string) :
  k ∈ ENTITY_KINDS ->
  get_entity_kind_permission k = Ok (claimed_permission k).
Proof.
  intros Hk. unfold get_entity_kind_permission, dict_get.
  rewrite (operations_lookup_kind _ Hk). simpl.
  rewrite bool_decide_eq_true_2 by (by apply claimed_permission_in).
  reflexivity.
Qed.

(** Outside ENTITY_KINDS the argument itself is taken as the permission,
    and the assertion decides. *)
Lemma get_entity_kind_permission_other (k : string) :
  k ∉ ENTITY_KINDS ->
  get_entity_kind_permission k =
    if bool_decide (k ∈ ENTITY_PERMISSIONS) then Ok k else Raise AssertionError.
Proof.
  intros Hk. unfold get_entity_kind_permission, dict_get.
  rewrite (operations_lookup_other _ Hk). simpl.
  by destruct (bool_decide (k ∈ ENTITY_PERMISSIONS)).
Qed.

(** C1: every member of ENTITY_KINDS is mapped to a member of
    ENTITY_PERMISSIONS, and the permission is the one the table of the
    claim gives: add -> add, update -> change, update_geom -> change_geom,
    delete -> delete, read-style kinds -> read, export-style kinds ->
    export. *)
Theorem entity_kind_permission_table (kind : string) :
  kind ∈ ENTITY_KINDS ->
  get_entity_kind_permission kind = Ok (claimed_permission kind)
  /\ claimed_permission kind ∈ ENTITY_PERMISSIONS.
Proof.
  intros Hk. split.
  - by apply get_entity_kind_permission_kind.
  - by apply claimed_permission_in.
Qed.

Lemma entity_kind_permission_table_witness :
  "mapimage" ∈ ENTITY_KINDS
  /\ get_entity_kind_permission "mapimage" = Ok "export"
  /\ "export" ∈ ENTITY_PERMISSIONS.
Proof.
  assert (Hin : "mapimage" ∈ ENTITY_KINDS)
    by (apply (bool_decide_unpack _); vm_compute; exact I).
  split; [exact Hin |].
  exact (entity_kind_permission_table "mapimage" Hin).
Defined.

(** C8: the assertion of [get_entity_kind_permission] holds (the call
    returns a permission of ENTITY_PERMISSIONS) for every argument that is
    an entity kind or already a permission, and fails with AssertionError
    for every other string. *)
Theorem entity_kind_assertion (entity_kind : string) :
  (entity_kind ∈ ENTITY_KINDS \/ entity_kind ∈ ENTITY_PERMISSIONS ->
     exists perm, get_entity_kind_permission entity_kind = Ok perm
                  /\ perm ∈ ENTITY_PERMISSIONS)
  /\ (~ (entity_kind ∈ ENTITY_KINDS \/ entity_kind ∈ ENTITY_PERMISSIONS) ->
     get_entity_kind_permission entity_kind = Raise AssertionError).
Proof.
  destruct (decide (entity_kind ∈ ENTITY_KINDS)) as [Hk | Hk].
  - split; [| tauto]. intros _. exists (claimed_permission entity_kind).
    split; [by apply get_entity_kind_permission_kind
           | by apply claimed_permission_in].
  - rewrite (get_entity_kind_permission_other _ Hk).
    case_bool_decide as Hp; split; try tauto.
    intros _. by exists entity_kind.
Qed.

Lemma entity_kind_assertion_witness :
  (exists perm, get_entity_kind_permission "list" = Ok perm
                /\ perm ∈ ENTITY_PERMISSIONS)
  /\ (exists perm, get_entity_kind_permission "change_geom" = Ok perm
                   /\ perm ∈ ENTITY_PERMISSIONS)
  /\ get_entity_kind_permission "publish" = Raise AssertionError.
Proof.
  split; [| split].
  - apply (entity_kind_assertion "list"). left.
    apply (bool_decide_unpack _); vm_compute; exact I.
  - apply (entity_kind_assertion "change_geom"). right.
    apply (bool_decide_unpack _); vm_compute; exact I.
  - apply (entity_kind_assertion "publish").
    apply (bool_decide_unpack
             (~ ("publish" ∈ ENTITY_KINDS \/ "publish" ∈ ENTITY_PERMISSIONS))).
    vm_compute; exact I.
Defined.

End Entity.

(** ** Python string helpers *)

Module PyStr.

(** [str.lower] on ASCII letters; bytes outside [A-Z] are kept. *)
Definition lower_char (c : ascii) : ascii :=
  let n := N_of_ascii c in
  if ((65 <=? n) && (n <=? 90))%N then ascii_of_N (n + 32) else c.

Fixpoint lower (s : string) : string :=
  match s with
  | EmptyString => EmptyString
  | String c rest => String (lower_char c) (lower rest)
  end.

(** States of the scanner for [template % mapping]: literal text, just
    after a percent sign, inside the parenthesised key (its characters so
    far, most recent first), and at the conversion character that follows
    the key. *)
Inductive fmt_state : Type :=
  | Lit
  | Pct
  | Key (acc : list ascii)
  | Conv (key : string).

(** [template % kwargs] for templates made of literal text, [%%] and
    [%(key)s] fields, the fragment [perms_map] uses.  A missing key raises
    KeyError and a template cut short raises ValueError; other conversions
    are outside the fragment and refused with ValueError as well. *)
Fixpoint format_from (st : fmt_state) (template : string)
    (kwargs : gmap string string) : result string :=
  match template with
  | EmptyString =>
      match st with
      | Lit => Ok EmptyString
      | _ => Raise ValueError
      end
  | String c rest =>
      match st with
      | Lit =>
          if Ascii.eqb c "%" then format_from Pct rest kwargs
          else out ← format_from Lit rest kwargs; Ok (String c out)
      | Pct =>
          if Ascii.eqb c "(" then format_from (Key []) rest kwargs
          else if Ascii.eqb c "%" then
            out ← format_from Lit rest kwargs; Ok (String "%" out)
          else Raise ValueError
      | Key acc =>
          if Ascii.eqb c ")" then
            format_from (Conv (string_of_list_ascii (rev acc))) rest kwargs
          else format_from (Key (c :: acc)) rest kwargs
      | Conv key =>
          if Ascii.eqb c "s" then
            match kwargs !! key with
            | Some v => out ← format_from Lit rest kwargs; Ok (v ++ out)
            | None => Raise KeyError
            end
          else Raise ValueError
      end
  end.

Definition format (template : string) (kwargs : gmap string string) : result string :=
  format_from Lit template kwargs.

Lemma lower_char_idemp (c : ascii) : lower_char (lower_char c) = lower_char c.
Proof.
  unfold lower_char.
  destruct ((65 <=? N_of_ascii c) && (N_of_ascii c <=? 90))%N eqn:E.
  - apply andb_true_iff in E as [H1 H2].
    apply N.leb_le in H1, H2.
    assert (Hlt : (N_of_ascii c + 32 < 256)%N) by lia.
    rewrite N_ascii_embedding by exact Hlt.
    destruct ((65 <=? N_of_ascii c + 32) && (N_of_ascii c + 32 <=? 90))%N eqn:E2.
    + apply andb_true_iff in E2 as [_ H3]. apply N.leb_le in H3. lia.
    + reflexivity.
  - rewrite E. reflexivity.
Qed.

Lemma lower_idemp (s : string) : lower (lower s) = lower s.
Proof.
  induction s as [| c s IH]; simpl; [reflexivity |].
  by rewrite lower_char_idemp, IH.
Qed.

Lemma append_assoc (a b c : string) : (a ++ b) ++ c = a ++ (b ++ c).
Proof.
  induction a as [| x a IH]; [reflexivity |].
  change (String x ((a ++ b) ++ c) = String x (a ++ (b ++ c))).
  by rewrite IH.
Qed.

Lemma append_nil_r (a : string) : a ++ "" = a.
Proof.
  induction a as [| x a IH]; [reflexivity |].
  change (String x (a ++ "") = String x a). by rewrite IH.
Qed.

End PyStr.

(** ** URLs derived from the model name (models.py, lines 144-154) *)

Module Urls.

(** The part of [cls._meta] the URL helpers and permission names read. *)
Record Options : Type := mkOptions {
  app_label : string;
  model_name : string
}.

(** [BaseMapEntityMixin.get_layer_url]; the sum is left-nested as Python
    evaluates it. *)
Definition get_layer_url (_meta : Options) : string :=
  ((("/api/" ++ PyStr.lower (model_name _meta)) ++ "/drf/")
     ++ PyStr.lower (model_name _meta)) ++ "s.geojson".

(** [BaseMapEntityMixin.get_datatablelist_url] *)
Definition get_datatablelist_url (_meta : Options) : string :=
  ((("/api/" ++ PyStr.lower (model_name _meta)) ++ "/drf/")
     ++ PyStr.lower (model_name _meta)) ++ "s.datatables".

(** The naming convention as claim C7 words it. *)
Definition layer_url_of_name (m : string) : string :=
  "/api/" ++ m ++ "/drf/" ++ m ++ "s.geojson".
Definition datatablelist_url_of_name (m : string) : string :=
  "/api/" ++ m ++ "/drf/" ++ m ++ "s.datatables".

(** C7: with m the lowercased model name, [get_layer_url] is
    "/api/" + m + "/drf/" + m + "s.geojson" and [get_datatablelist_url] is
    "/api/" + m + "/drf/" + m + "s.datatables"; nothing but the model name
    enters either URL. *)
Theorem urls_follow_naming_convention (_meta : Options) (m : string) :
  m = PyStr.lower (model_name _meta) ->
  get_layer_url _meta = layer_url_of_name m
  /\ get_datatablelist_url _meta = datatablelist_url_of_name m
  /\ PyStr.lower m = m
  /\ (forall other : Options,
        PyStr.lower (model_name other) = m ->
        get_layer_url other = get_layer_url _meta
        /\ get_datatablelist_url other = get_datatablelist_url _meta).
Proof.
  intros ->.
  unfold get_layer_url, get_datatablelist_url,
    layer_url_of_name, datatablelist_url_of_name.
  repeat split.
  - by rewrite !PyStr.append_assoc.
  - by rewrite !PyStr.append_assoc.
  - apply PyStr.lower_idemp.
  - by rewrite H.
  - by rewrite H.
Qed.

Lemma urls_follow_naming_convention_witness :
  get_layer_url (mkOptions "test_app" "DummyModel")
    = "/api/dummymodel/drf/dummymodels.geojson"
  /\ get_datatablelist_url (mkOptions "test_app" "DummyModel")
    = "/api/dummymodel/drf/dummymodels.datatables".
Proof.
  destruct (urls_follow_naming_convention
              (mkOptions "test_app" "DummyModel") "dummymodel" eq_refl)
    as (Hl & Hd & _ & _).
  split; [exact Hl | exact Hd].
Defined.

End Urls.

(** ** REST permissions (models.py, lines 60-69) *)

Module Rest.

Import Urls.

(** [MapEntityRestPermissions.perms_map]: HTTP method to the list of
    permission templates the method requires. *)
Definition perms_map : gmap string (list string) :=
  <["DELETE" := ["%(app_label)s.delete_%(model_name)s"] ]>
  (<["PATCH" := ["%(app_label)s.change_%(model_name)s"] ]>
  (<["PUT" := ["%(app_label)s.change_%(model_name)s"] ]>
  (<["POST" := ["%(app_label)s.add_%(model_name)s"] ]>
  (<["HEAD" := ["%(app_label)s.read_%(model_name)s"] ]>
  (<["OPTIONS" := ["%(app_label)s.read_%(model_name)s"] ]>
  (<["GET" := ["%(app_label)s.read_%(model_name)s"] ]> ∅)))))).

(** [[f(x) for x in xs]] where [f] may raise. *)
Fixpoint map_result {A B : Type} (f : A -> result B) (xs : list A) : result (list B) :=
  match xs with
  | [] => Ok []
  | x :: rest => y ← f x; ys ← map_result f rest; Ok (y :: ys)
  end.

(** [DjangoModelPermissions.get_required_permissions] of the REST toolkit,
    the inherited method that reads [perms_map]: the templates of the
    method are filled with the model's app label and model name; a method
    absent from the map is refused. *)
Definition get_required_permissions (method : string) (_meta : Options)
    : result (list string) :=
  let kwargs : gmap string string :=
    <["model_name" := model_name _meta]> (<["app_label" := app_label _meta]> ∅) in
  match perms_map !! method with
  | None => Raise MethodNotAllowed
  | Some templates => map_result (fun perm => PyStr.format perm kwargs) templates
  end.

(** The methods and their permission as claim C5 words them. *)
Definition rest_methods : list string :=
  ["GET"; "OPTIONS"; "HEAD"; "POST"; "PUT"; "PATCH"; "DELETE"].

Definition claimed_action (method : string) : string :=
  if bool_decide (method ∈ ["GET"; "OPTIONS"; "HEAD"]) then "read"
  else if bool_decide (method = "POST") then "add"
  else if bool_decide (method ∈ ["PUT"; "PATCH"]) then "change"
  else "delete".

Definition qualified_permission (action : string) (_meta : Options) : string :=
  app_label _meta ++ "." ++ action ++ "_" ++ model_name _meta.

(** *** Filling [%(app_label)s.<action>_%(model_name)s] *)

Section Format.
Variable kwargs : gmap string string.
Variables app model : string.
Hypothesis Happ : kwargs !! "app_label" = Some app.
Hypothesis Hmodel : kwargs !! "model_name" = Some model.

Ltac fill_template :=
  unfold PyStr.format; cbn; rewrite Happ; cbn; rewrite Hmodel; cbn;
  rewrite PyStr.append_nil_r; reflexivity.

Lemma format_read :
  PyStr.format "%(app_label)s.read_%(model_name)s" kwargs
    = Ok (app ++ ".read_" ++ model).
Proof. fill_template. Qed.

Lemma format_add :
  PyStr.format "%(app_label)s.add_%(model_name)s" kwargs
    = Ok (app ++ ".add_" ++ model).
Proof. fill_template. Qed.

Lemma format_change :
  PyStr.format "%(app_label)s.change_%(model_name)s" kwargs
    = Ok (app ++ ".change_" ++ model).
Proof. fill_template. Qed.

Lemma format_delete :
  PyStr.format "%(app_label)s.delete_%(model_name)s" kwargs
    = Ok (app ++ ".delete_" ++ model).
Proof. fill_template. Qed.
End Format.

Lemma kwargs_app_label (_meta : Options) :
  (<["model_name" := model_name _meta]>
     (<["app_label" := app_label _meta]> (∅ : gmap string string)))
    !! "app_label" = Some (app_label _meta).
Proof. by rewrite lookup_insert_ne, lookup_insert_eq. Qed.

Lemma kwargs_model_name (_meta : Options) :
  (<["model_name" := model_name _meta]>
     (<["app_label" := app_label _meta]> (∅ : gmap string string)))
    !! "model_name" = Some (model_name _meta).
Proof. by rewrite lookup_insert_eq. Qed.

Lemma perms_map_handled (method : string) :
  is_Some (perms_map !! method) <-> method ∈ rest_methods.
Proof.
  unfold rest_methods, perms_map. split.
  - intros Hsome. rewrite !elem_of_cons, elem_of_nil.
    repeat (rewrite lookup_insert in Hsome;
            case_decide; [subst method; intuition |]).
    rewrite lookup_empty in Hsome. by destruct Hsome.
  - rewrite !elem_of_cons, elem_of_nil. intros H.
    repeat (destruct H as [-> | H]; [vm_compute; eauto |]). destruct H.
Qed.

(** C5: each of GET, OPTIONS, HEAD, POST, PUT, PATCH and DELETE (the
    methods [perms_map] handles) requires exactly one permission:
    read for GET, OPTIONS and HEAD, add for POST, change for PUT and PATCH,
    delete for DELETE, written <app_label>.<action>_<model_name>. *)
Theorem rest_method_requires_one_permission (method : string) (_meta : Options) :
  method ∈ rest_methods ->
  is_Some (perms_map !! method)
  /\ get_required_permissions method _meta
     = Ok [qualified_permission (claimed_action method) _meta].
Proof.
  intros Hm. split; [by apply perms_map_handled |].
  pose proof (kwargs_app_label _meta) as Ha.
  pose proof (kwargs_model_name _meta) as Hn.
  unfold rest_methods in Hm. rewrite !elem_of_cons, elem_of_nil in Hm.
  unfold get_required_permissions.
  destruct Hm as [-> | [-> | [-> | [-> | [-> | [-> | [-> | []]]]]]]].
  - replace (perms_map !! "GET") with (Some ["%(app_label)s.read_%(model_name)s"])
      by (vm_compute; reflexivity).
    cbn [map_result]. by rewrite (format_read _ _ _ Ha Hn).
  - replace (perms_map !! "OPTIONS") with (Some ["%(app_label)s.read_%(model_name)s"])
      by (vm_compute; reflexivity).
    cbn [map_result]. by rewrite (format_read _ _ _ Ha Hn).
  - replace (perms_map !! "HEAD") with (Some ["%(app_label)s.read_%(model_name)s"])
      by (vm_compute; reflexivity).
    cbn [map_result]. by rewrite (format_read _ _ _ Ha Hn).
  - replace (perms_map !! "POST") with (Some ["%(app_label)s.add_%(model_name)s"])
      by (vm_compute; reflexivity).
    cbn [map_result]. by rewrite (format_add _ _ _ Ha Hn).
  - replace (perms_map !! "PUT") with (Some ["%(app_label)s.change_%(model_name)s"])
      by (vm_compute; reflexivity).
    cbn [map_result]. by rewrite (format_change _ _ _ Ha Hn).
  - replace (perms_map !! "PATCH") with (Some ["%(app_label)s.change_%(model_name)s"])
      by (vm_compute; reflexivity).
    cbn [map_result]. by rewrite (format_change _ _ _ Ha Hn).
  - replace (perms_map !! "DELETE") with (Some ["%(app_label)s.delete_%(model_name)s"])
      by (vm_compute; reflexivity).
    cbn [map_result]. by rewrite (format_delete _ _ _ Ha Hn).
Qed.

Lemma rest_method_requires_one_permission_witness :
  get_required_permissions "PATCH" (mkOptions "test_app" "dummymodel")
    = Ok ["test_app.change_dummymodel"].
Proof.
  refine (proj2 (rest_method_requires_one_permission "PATCH"
                   (mkOptions "test_app" "dummymodel") _)).
  apply (bool_decide_unpack _); vm_compute; exact I.
Defined.

End Rest.

(** ** Date of the latest update (models.py, lines 117-130 and 313-321) *)

Module Latest.

(** A [datetime]: its wall-clock reading (microseconds) and its
    [tzinfo]. *)
Inductive tz : Type :=
  | UTC
  | FixedOffset (minutes : Z).

Record datetime : Type := mkDatetime {
  wall_clock : Z;
  tzinfo : option tz
}.

(** [d.replace(tzinfo=zone)] relabels the zone and keeps the reading. *)
Definition replace_tzinfo (d : datetime) (zone : tz) : datetime :=
  {| wall_clock := wall_clock d; tzinfo := Some zone |}.

(** A loaded model instance, restricted to its date columns: attribute
    name to value, [None] being SQL NULL. *)
Abbreviation Row := (gmap string (option datetime)).

(** A model class: the names of its fields and the rows of its table. *)
Record Model : Type := mkModel {
  fields : list string;
  objects : list Row
}.

(** The column of a row as the database orders it; NULL is [None]. *)
Definition column (fname : string) (r : Row) : option Z :=
  d ← mjoin (r !! fname); Some (wall_clock d).

Section Queries.
(** The backend feature of the same name: whether NULL sorts above every
    value (PostgreSQL) or below (SQLite). *)
Variable nulls_order_largest : bool.

Definition column_le (a b : option Z) : bool :=
  match a, b with
  | None, None => true
  | None, Some _ => negb nulls_order_largest
  | Some _, None => nulls_order_largest
  | Some x, Some y => (x <=? y)%Z
  end.

(** First row of [ORDER BY fname DESC]: scan keeping the best row so
    far, replaced only by a strictly later one. *)
Fixpoint first_descending (fname : string) (best : Row) (rest : list Row) : Row :=
  match rest with
  | [] => best
  | r :: rest' =>
      if column_le (column fname r) (column fname best)
      then first_descending fname best rest'
      else first_descending fname r rest'
  end.

(** [QuerySet.only(fname)]: defers the other columns; the rows and the
    named column are those of the table. *)
Definition only (m : Model) (fname : string) : Model := m.

(** [QuerySet.latest(fname)]: FieldError for a name that is not a field
    of the model, DoesNotExist on an empty table, else the first row in
    descending order of the field. *)
Definition latest (m : Model) (fname : string) : result Row :=
  if bool_decide (fname ∈ fields m) then
    match objects m with
    | [] => Raise DoesNotExist
    | r :: rest => Ok (first_descending fname r rest)
    end
  else Raise FieldError.

(** [getattr(self, name)] *)
Definition getattr (self : Row) (name : string) : result (option datetime) :=
  match self !! name with
  | Some v => Ok v
  | None => Raise AttributeError
  end.

(** [value.replace(tzinfo=utc)]; [None] has no such attribute. *)
Definition replace_utc (value : option datetime) : result (option datetime) :=
  match value with
  | Some d => Ok (Some (replace_tzinfo d UTC))
  | None => Raise AttributeError
  end.

(** [BaseMapEntityMixin.get_date_update] (lines 125-130);
    [fname] is [app_settings['DATE_UPDATE_FIELD_NAME']]. *)
Definition get_date_update (fname : string) (self : Row) : result (option datetime) :=
  try_except
    (value ← getattr self fname; replace_utc value)
    [AttributeError]
    (Ok None).

(** [BaseMapEntityMixin.latest_updated] (lines 117-123). *)
Definition latest_updated (fname : string) (cls : Model) : result (option datetime) :=
  try_except
    (obj ← latest (only cls fname) fname; get_date_update fname obj)
    [DoesNotExist; FieldError]
    (Ok None).

(** [LogEntry.get_date_update] (lines 313-314). *)
Definition logentry_get_date_update (self : Row) : result (option datetime) :=
  getattr self "action_time".

(** [LogEntry.latest_updated] (lines 316-321). *)
Definition logentry_latest_updated (cls : Model) : result (option datetime) :=
  try_except
    (obj ← latest (only cls "action_time") "action_time";
     logentry_get_date_update obj)
    [DoesNotExist; FieldError]
    (Ok None).

(** *** The scan returns a latest row *)

Lemma column_le_refl (a : option Z) : column_le a a = true.
Proof. destruct a; simpl; [apply Z.leb_refl | reflexivity]. Qed.

Lemma column_le_total (a b : option Z) :
  column_le a b = false -> column_le b a = true.
Proof.
  destruct a, b; simpl; try discriminate.
  - intros H. apply Z.leb_gt in H. apply Z.leb_le. lia.
  - by destruct nulls_order_largest.
  - by destruct nulls_order_largest.
Qed.

Lemma column_le_trans (a b c : option Z) :
  column_le a b = true -> column_le b c = true -> column_le a c = true.
Proof.
  destruct a, b, c; simpl; try done.
  - rewrite !Z.leb_le. lia.
  - intros H1 H2. rewrite H1 in H2. discriminate.
Qed.

Lemma first_descending_in (fname : string) (best : Row) (rest : list Row) :
  first_descending fname best rest ∈ best :: rest.
Proof.
  revert best. induction rest as [| r rest IH]; intros best; simpl.
  - apply list_elem_of_here.
  - destruct (column_le (column fname r) (column fname best)).
    + pose proof (IH best) as H. rewrite !elem_of_cons in *. tauto.
    + pose proof (IH r) as H. rewrite !elem_of_cons in *. tauto.
Qed.

Lemma first_descending_ge_best (fname : string) (best : Row) (rest : list Row) :
  column_le (column fname best)
            (column fname (first_descending fname best rest)) = true.
Proof.
  revert best. induction rest as [| r rest IH]; intros best; simpl.
  - apply column_le_refl.
  - destruct (column_le (column fname r) (column fname best)) eqn:E.
    + apply IH.
    + eapply column_le_trans; [| apply IH]. by apply column_le_total.
Qed.

Lemma first_descending_max (fname : string) (best : Row) (rest : list Row) (r : Row) :
  r ∈ best :: rest ->
  column_le (column fname r)
            (column fname (first_descending fname best rest)) = true.
Proof.
  revert best. induction rest as [| x rest IH]; intros best Hin.
  - apply list_elem_of_singleton in Hin as ->. apply column_le_refl.
  - simpl. destruct (column_le (column fname x) (column fname best)) eqn:E.
    + apply elem_of_cons in Hin as [-> | Hin].
      * apply first_descending_ge_best.
      * apply elem_of_cons in Hin as [-> | Hin].
        -- eapply column_le_trans; [exact E | apply first_descending_ge_best].
        -- apply IH. by apply list_elem_of_further.
    + apply elem_of_cons in Hin as [-> | Hin].
      * eapply column_le_trans; [| apply first_descending_ge_best].
        by apply column_le_total.
      * apply IH. exact Hin.
Qed.

Lemma get_date_update_ok (fname : string) (self : Row) :
  get_date_update fname self
    = Ok (match self !! fname with
          | Some (Some d) => Some (replace_tzinfo d UTC)
          | _ => None
          end).
Proof.
  unfold get_date_update, getattr.
  destruct (self !! fname) as [[d |] |]; reflexivity.
Qed.

(** What the guarded call yields on a model with the field and at
    least one row: a latest row. *)
Lemma latest_some (m : Model) (fname : string) :
  fname ∈ fields m -> objects m <> [] ->
  exists obj, latest (only m fname) fname = Ok obj
              /\ obj ∈ objects m
              /\ (forall other, other ∈ objects m ->
                    column_le (column fname other) (column fname obj) = true).
Proof.
  intros Hf Hrows. unfold latest, only.
  rewrite bool_decide_eq_true_2 by exact Hf.
  destruct (objects m) as [| r rest]; [done |].
  exists (first_descending fname r rest). split; [reflexivity |]. split.
  - apply first_descending_in.
  - intros other Hin. by apply first_descending_max.
Qed.

(** Value of the two outcomes the handlers of [latest_updated] turn
    into [None]. *)
Lemma latest_empty (m : Model) (fname : string) :
  objects m = [] ->
  latest (only m fname) fname = Raise DoesNotExist
  \/ latest (only m fname) fname = Raise FieldError.
Proof.
  intros Hrows. unfold latest, only. rewrite Hrows.
  case_bool_decide; [by left | by right].
Qed.

Lemma latest_no_field (m : Model) (fname : string) :
  fname ∉ fields m -> latest (only m fname) fname = Raise FieldError.
Proof.
  intros Hf. unfold latest, only. by rewrite bool_decide_eq_false_2.
Qed.

End Queries.

(** A table of two objects updated at 100 and at 250, and the same model
    without rows or asked for a field it does not have. *)
Definition sample_row (t : Z) : Row :=
  <["action_time" := Some (mkDatetime t None)]>
    (<["date_update" := Some (mkDatetime t None)]> ∅).

Definition sample_model : Model :=
  mkModel ["id"; "date_update"; "action_time"] [sample_row 100; sample_row 250].

Example latest_updated_sample :
  latest_updated true "date_update" sample_model
    = Ok (Some (mkDatetime 250 (Some UTC))).
Proof. vm_compute. reflexivity. Qed.

Example logentry_latest_updated_sample :
  logentry_latest_updated true sample_model
    = Ok (Some (mkDatetime 250 None)).
Proof. vm_compute. reflexivity. Qed.

End Latest.

(** ** Creator and last author from the audit log (models.py, lines 239-262) *)

Module Audit.

(** [django.contrib.admin.models] action flags. *)
Definition ADDITION : Z := 1.
Definition CHANGE : Z := 2.
Definition DELETION : Z := 3.

(** Rows of the user table and of the admin log table.  [object_id] is a
    nullable text column, [content_type_id] a nullable foreign key. *)
Record User : Type := mkUser {
  user_id : Z;
  username : string
}.

Record LogEntry : Type := mkLogEntry {
  le_pk : Z;
  le_user_id : Z;
  le_content_type_id : option Z;
  le_object_id : option string;
  le_action_flag : Z
}.

Record Database : Type := mkDatabase {
  users : list User;
  log_entries : list LogEntry
}.

(** The object the properties are read on: its primary key ([None] before
    the first save) and the outcome of
    [ContentType.objects.get_for_model(cls).pk] for its class. *)
Record MapEntity : Type := mkMapEntity {
  pk : option Z;
  content_type_pk : result Z
}.

Global Instance User_eq_dec : EqDecision User.
Proof. solve_decision. Defined.

Global Instance LogEntry_eq_dec : EqDecision LogEntry.
Proof. solve_decision. Defined.

(** *** Query operations *)

(** Ordering of rows by an integer column. *)
Definition by_key {A : Type} (key : A -> Z) : relation A :=
  fun a b => (key a <= key b)%Z.

Global Instance by_key_dec {A : Type} (key : A -> Z) (a b : A) :
  Decision (by_key key a b).
Proof. unfold by_key. apply _. Defined.

Global Instance by_key_trans {A : Type} (key : A -> Z) : Transitive (by_key key).
Proof. unfold by_key. intros a b c. lia. Qed.

Global Instance by_key_total {A : Type} (key : A -> Z) : Total (by_key key).
Proof. unfold by_key. intros a b. lia. Qed.

(** [qs.order_by(column)], ascending. *)
Definition order_by {A : Type} (key : A -> Z) (rows : list A) : list A :=
  merge_sort (by_key key) rows.

(** The value a lookup [text_column=value] is compared with: the text
    field turns a non-string value into its [str]. *)
Definition text_prep_value (value : option Z) : option string :=
  pretty <$> value.

(** [filter(content_type_id=ct, object_id=oid)] on the log table.  An
    exact lookup against [None] is an IS NULL test, so each test is
    equality of nullable values. *)
Definition entry_of (ct : option Z) (oid : option string) (e : LogEntry) : bool :=
  bool_decide (le_content_type_id e = ct) && bool_decide (le_object_id e = oid).

(** [filter(content_type_id=ct, object_id=oid, action_flag=flag)] *)
Definition entry_of_with_flag (ct : option Z) (oid : option string) (flag : Z)
    (e : LogEntry) : bool :=
  entry_of ct oid e && bool_decide (le_action_flag e = flag).

(** [log_entry.user]: the row the foreign key points to. *)
Definition entry_user (db : Database) (e : LogEntry) : result User :=
  match List.find (fun u => bool_decide (user_id u = le_user_id e)) (users db) with
  | Some u => Ok u
  | None => Raise DoesNotExist
  end.

(** [BaseMapEntityMixin.get_content_type_id] (lines 239-244). *)
Definition get_content_type_id (self : MapEntity) : result (option Z) :=
  try_except (ct ← content_type_pk self; Ok (Some ct))
             [OperationalError]
             (Ok None).

(** [BaseMapEntityMixin.creator] (lines 246-252).  [x and y] on a model
    instance [x] is [y], on [None] it is [None]. *)
Definition creator (db : Database) (self : MapEntity) : result (option User) :=
  ct ← get_content_type_id self;
  let log_entry :=
    last (order_by le_pk
            (List.filter (entry_of_with_flag ct (text_prep_value (pk self)) ADDITION)
                         (log_entries db))) in
  match log_entry with
  | None => Ok None
  | Some e => u ← entry_user db e; Ok (Some u)
  end.

(** A query on the user table through the reverse relation [logentry]:
    the condition on the joined log row, whether DISTINCT was asked, and
    whether the result is ordered by [logentry__pk]. *)
Record UserQuery : Type := mkUserQuery {
  uq_where : LogEntry -> bool;
  uq_distinct : bool;
  uq_order_by_logentry_pk : bool
}.

(** The users joined to their log rows (INNER JOIN on
    [logentry.user_id = user.id]), restricted by the condition.  The ORM
    keeps the join an inner join as long as one of the lookups on the log
    row compares with a value; when both the object id and the content
    type are None (an unsaved object after a failed content type lookup)
    it builds a LEFT OUTER JOIN, a case outside this model. *)
Definition joined (db : Database) (cond : LogEntry -> bool) : list (User * LogEntry) :=
  u ← users db;
  e ← List.filter (fun e => bool_decide (le_user_id e = user_id u) && cond e)
                  (log_entries db);
  [(u, e)].

(** Rows the query yields.  The ordering column of the joined table is
    part of the selected columns, so DISTINCT compares it too: an
    ordered query yields one row per (user, log row) pair. *)
Definition evaluate (db : Database) (q : UserQuery) : list User :=
  if uq_order_by_logentry_pk q then
    let rows := (fun ue => (fst ue, le_pk (snd ue))) <$> joined db (uq_where q) in
    let rows := if uq_distinct q then remove_dups rows else rows in
    fst <$> order_by snd rows
  else
    let rows := fst <$> joined db (uq_where q) in
    if uq_distinct q then remove_dups rows else rows.

(** [BaseMapEntityMixin.authors] (lines 254-258). *)
Definition authors (self : MapEntity) : result UserQuery :=
  ct ← get_content_type_id self;
  Ok {| uq_where := entry_of ct (text_prep_value (pk self));
        uq_distinct := true;
        uq_order_by_logentry_pk := false |}.

(** [qs.order_by('logentry__pk')] *)
Definition order_by_logentry_pk (q : UserQuery) : UserQuery :=
  {| uq_where := uq_where q;
     uq_distinct := uq_distinct q;
     uq_order_by_logentry_pk := true |}.

(** [BaseMapEntityMixin.last_author] (lines 260-262). *)
Definition last_author (db : Database) (self : MapEntity) : result (option User) :=
  q ← authors self;
  Ok (last (evaluate db (order_by_logentry_pk q))).

(** Every log row points to a row of the user table. *)
Definition foreign_keys_hold (db : Database) : Prop :=
  forall e, e ∈ log_entries db ->
    exists u, u ∈ users db /\ user_id u = le_user_id e.

(** The log rows of an object, as the claims word them. *)
Definition logged_for (db : Database) (ct : option Z) (self : MapEntity)
    (e : LogEntry) : Prop :=
  e ∈ log_entries db
  /\ le_content_type_id e = ct
  /\ le_object_id e = text_prep_value (pk self).

Definition addition_for (db : Database) (ct : option Z) (self : MapEntity)
    (e : LogEntry) : Prop :=
  logged_for db ct self e /\ le_action_flag e = ADDITION.

(** *** The last row of an ordered result *)

Lemma sorted_last_max {A : Type} (R : relation A) `{!Reflexive R}
    (l : list A) (x : A) :
  StronglySorted R l -> last l = Some x -> forall y, y ∈ l -> R y x.
Proof.
  induction 1 as [| a l Hs IH Hall]; intros Hlast y Hy.
  - by apply elem_of_nil in Hy.
  - destruct l as [| b l'].
    + simpl in Hlast. injection Hlast as <-.
      apply list_elem_of_singleton in Hy as ->. reflexivity.
    + rewrite last_cons_cons in Hlast.
      apply elem_of_cons in Hy as [-> | Hy].
      * rewrite Forall_forall in Hall. apply Hall.
        by apply last_Some_elem_of.
      * by apply IH.
Qed.

Global Instance by_key_refl {A : Type} (key : A -> Z) : Reflexive (by_key key).
Proof. unfold by_key. intros a. lia. Qed.

Lemma order_by_elem_of {A : Type} (key : A -> Z) (l : list A) (x : A) :
  x ∈ order_by key l <-> x ∈ l.
Proof. unfold order_by. by rewrite merge_sort_Permutation. Qed.

Lemma order_by_last_Some {A : Type} (key : A -> Z) (l : list A) (x : A) :
  last (order_by key l) = Some x ->
  x ∈ l /\ forall y, y ∈ l -> (key y <= key x)%Z.
Proof.
  intros Hlast. split.
  - apply order_by_elem_of with (key := key). by apply last_Some_elem_of.
  - intros y Hy.
    apply (sorted_last_max (by_key key) (order_by key l) x).
    + apply StronglySorted_merge_sort; apply _.
    + exact Hlast.
    + by apply order_by_elem_of.
Qed.

Lemma order_by_last_None {A : Type} (key : A -> Z) (l : list A) :
  last (order_by key l) = None <-> l = [].
Proof.
  rewrite last_None. unfold order_by. split.
  - intros H. apply Permutation_nil_r.
    by rewrite <- (merge_sort_Permutation (by_key key) l), H.
  - intros ->. reflexivity.
Qed.

(** *** Membership in the filtered and joined tables *)

Lemma entry_of_true (ct : option Z) (oid : option string) (e : LogEntry) :
  entry_of ct oid e = true <->
  le_content_type_id e = ct /\ le_object_id e = oid.
Proof.
  unfold entry_of. rewrite andb_true_iff, !bool_decide_eq_true. tauto.
Qed.

Lemma entry_of_with_flag_true (ct : option Z) (oid : option string) (flag : Z)
    (e : LogEntry) :
  entry_of_with_flag ct oid flag e = true <->
  le_content_type_id e = ct /\ le_object_id e = oid /\ le_action_flag e = flag.
Proof.
  unfold entry_of_with_flag.
  rewrite andb_true_iff, entry_of_true, bool_decide_eq_true. tauto.
Qed.

Lemma elem_of_joined (db : Database) (cond : LogEntry -> bool)
    (u : User) (e : LogEntry) :
  (u, e) ∈ joined db cond <->
  u ∈ users db /\ e ∈ log_entries db
  /\ le_user_id e = user_id u /\ cond e = true.
Proof.
  unfold joined. rewrite list_elem_of_bind. split.
  - intros (u' & Hin & Hu). apply list_elem_of_bind in Hin as (e' & Hp & He).
    apply list_elem_of_singleton in Hp. injection Hp as -> ->.
    apply list_elem_of_In, filter_In in He as [He Hc].
    apply andb_true_iff in Hc as [Hk Hc]. apply bool_decide_eq_true in Hk.
    by rewrite <- list_elem_of_In in He.
  - intros (Hu & He & Hk & Hc). exists u. split; [| exact Hu].
    apply list_elem_of_bind. exists e. split; [apply list_elem_of_here |].
    apply list_elem_of_In, filter_In. split; [by apply list_elem_of_In |].
    apply andb_true_iff. split; [by apply bool_decide_eq_true | exact Hc].
Qed.

Lemma entry_user_ok (db : Database) (e : LogEntry) :
  foreign_keys_hold db -> e ∈ log_entries db ->
  exists u, entry_user db e = Ok u /\ u ∈ users db /\ user_id u = le_user_id e.
Proof.
  intros Hfk He. unfold entry_user.
  destruct (List.find _ (users db)) as [u |] eqn:Hfind.
  - apply find_some in Hfind as [Hin Hid].
    apply bool_decide_eq_true in Hid. exists u.
    split; [reflexivity |]. split; [by apply list_elem_of_In | exact Hid].
  - destruct (Hfk e He) as (u & Hu & Hid).
    apply list_elem_of_In in Hu.
    pose proof (find_none _ _ Hfind u Hu) as Hno. simpl in Hno.
    by rewrite bool_decide_eq_true_2 in Hno.
Qed.

Lemma elem_of_additions (db : Database) (ct : option Z) (self : MapEntity)
    (e : LogEntry) :
  e ∈ List.filter (entry_of_with_flag ct (text_prep_value (pk self)) ADDITION)
                  (log_entries db)
  <-> addition_for db ct self e.
Proof.
  rewrite list_elem_of_In, filter_In, <- list_elem_of_In,
    entry_of_with_flag_true.
  unfold addition_for, logged_for. tauto.
Qed.

(** The rows of the ordered author query are the (user, log pk) pairs of
    the join. *)
Lemma elem_of_ordered_rows (db : Database) (cond : LogEntry -> bool)
    (u : User) (k : Z) :
  (u, k) ∈ remove_dups ((fun ue => (fst ue, le_pk (snd ue))) <$> joined db cond)
  <-> exists e, k = le_pk e /\ (u, e) ∈ joined db cond.
Proof.
  rewrite elem_of_remove_dups, list_elem_of_fmap. split.
  - intros ([u' e] & Heq & Hin). simpl in Heq. injection Heq as -> ->.
    by exists e.
  - intros (e & -> & Hin). by exists (u, e).
Qed.

(** The distinct authors are the users with a log row that satisfies the
    condition. *)
Lemma elem_of_distinct_authors (db : Database) (cond : LogEntry -> bool)
    (u : User) :
  u ∈ remove_dups (fst <$> joined db cond)
  <-> u ∈ users db
      /\ exists e, e ∈ log_entries db
                   /\ le_user_id e = user_id u /\ cond e = true.
Proof.
  rewrite elem_of_remove_dups, list_elem_of_fmap. split.
  - intros ([u' e] & -> & Hin). simpl.
    apply elem_of_joined in Hin as (Hu & He & Hid & Hc).
    split; [exact Hu |]. by exists e.
  - intros (Hu & e & He & Hid & Hc). exists (u, e).
    split; [reflexivity |]. by apply elem_of_joined.
Qed.

(** C3: [creator] returns the user of the ADDITION log entry of the
    object (same content type, object id equal to the primary key) that
    has the greatest primary key, and returns None, without raising, when
    the object has no such entry. *)
Theorem creator_is_user_of_last_addition (db : Database) (self : MapEntity)
    (ct : option Z) :
  get_content_type_id self = Ok ct ->
  ((forall e, ~ addition_for db ct self e) -> creator db self = Ok None)
  /\ (foreign_keys_hold db ->
      (exists e, addition_for db ct self e) ->
      exists e u,
        addition_for db ct self e
        /\ (forall e', addition_for db ct self e' -> (le_pk e' <= le_pk e)%Z)
        /\ entry_user db e = Ok u
        /\ user_id u = le_user_id e
        /\ creator db self = Ok (Some u)).
Proof.
  intros Hct. unfold creator. rewrite Hct. cbn [mbind result_bind].
  set (found := List.filter _ (log_entries db)).
  split.
  - intros Hnone.
    assert (Hempty : found = []).
    { destruct found as [| e rest] eqn:E; [reflexivity |].
      exfalso. apply (Hnone e). apply elem_of_additions.
      fold found. rewrite E. apply list_elem_of_here. }
    rewrite Hempty. reflexivity.
  - intros Hfk (e0 & He0).
    destruct (last (order_by le_pk found)) as [e |] eqn:Hlast.
    + apply order_by_last_Some in Hlast as [Hin Hmax].
      apply elem_of_additions in Hin.
      destruct (entry_user_ok db e Hfk (proj1 (proj1 Hin)))
        as (u & Hu & _ & Hid).
      exists e, u. split; [exact Hin |]. split.
      * intros e' He'. apply Hmax. by apply elem_of_additions.
      * rewrite Hu. by cbn.
    + apply order_by_last_None in Hlast.
      apply elem_of_additions in He0. fold found in He0.
      rewrite Hlast in He0. by apply elem_of_nil in He0.
Qed.


(** *** A small audit log *)

Local Open Scope Z_scope.

Definition mary : User := mkUser 1 "mary_poppins0".
Definition john : User := mkUser 2 "mary_poppins1".

(** Object 42 of content type 7 is added by mary (row 10) and changed by
    john (rows 11 and 15); the other rows belong to other objects. *)
Definition sample_db : Database :=
  mkDatabase [mary; john]
    [ mkLogEntry 10 1 (Some 7) (Some "42") ADDITION;
      mkLogEntry 11 2 (Some 7) (Some "42") CHANGE;
      mkLogEntry 12 2 (Some 7) (Some "43") ADDITION;
      mkLogEntry 13 2 (Some 8) (Some "42") ADDITION;
      mkLogEntry 15 2 (Some 7) (Some "42") CHANGE;
      mkLogEntry 16 1 (Some 7) (Some "43") CHANGE ].

Definition sample_object : MapEntity := mkMapEntity (Some 42) (Ok 7).
Definition unlogged_object : MapEntity := mkMapEntity (Some 99) (Ok 7).

Lemma sample_db_foreign_keys : foreign_keys_hold sample_db.
Proof.
  intros e He. simpl in He.
  repeat (apply elem_of_cons in He as [-> | He];
          [first [ exists mary; split; [apply (bool_decide_unpack _); vm_compute; exact I | reflexivity]
                 | exists john; split; [apply (bool_decide_unpack _); vm_compute; exact I | reflexivity] ] |]).
  by apply elem_of_nil in He.
Qed.

Example creator_sample : creator sample_db sample_object = Ok (Some mary).
Proof. vm_compute. reflexivity. Qed.

Example creator_unlogged : creator sample_db unlogged_object = Ok None.
Proof. vm_compute. reflexivity. Qed.

Example last_author_sample : last_author sample_db sample_object = Ok (Some john).
Proof. vm_compute. reflexivity. Qed.

Example last_author_unlogged : last_author sample_db unlogged_object = Ok None.
Proof. vm_compute. reflexivity. Qed.

Lemma creator_is_user_of_last_addition_witness :
  creator sample_db unlogged_object = Ok None
  /\ exists e u,
       addition_for sample_db (Some 7) sample_object e
       /\ (forall e', addition_for sample_db (Some 7) sample_object e' ->
                      (le_pk e' <= le_pk e)%Z)
       /\ entry_user sample_db e = Ok u
       /\ user_id u = le_user_id e
       /\ creator sample_db sample_object = Ok (Some u).
Proof.
  split.
  - apply (proj1 (creator_is_user_of_last_addition
                    sample_db unlogged_object (Some 7) eq_refl)).
    intros e ((Hin & _ & Hoid) & _). simpl in Hin.
    repeat (apply elem_of_cons in Hin as [-> | Hin]; [discriminate Hoid |]).
    by apply elem_of_nil in Hin.
  - apply (proj2 (creator_is_user_of_last_addition
                    sample_db sample_object (Some 7) eq_refl)).
    + exact sample_db_foreign_keys.
    + exists (mkLogEntry 10 1 (Some 7) (Some "42") ADDITION).
      split; [split; [apply list_elem_of_here | split; reflexivity]
             | reflexivity].
Defined.


End Audit.

(** ** Python float arithmetic, over the reals *)

Module PyMath.

Local Open Scope R_scope.

(** Greatest integer not above [x]. *)
Definition floor (x : R) : Z := (up x - 1)%Z.

(** [math.ceil] *)
Definition math_ceil (x : R) : Z := (- floor (- x))%Z.

(** [round(x)] with one argument: the nearest integer, a tie going to
    the even neighbour. *)
Definition py_round (x : R) : Z :=
  let f := floor x in
  let d := x - IZR f in
  if Rlt_dec d (1 / 2) then f
  else if Rlt_dec (1 / 2) d then (f + 1)%Z
  else if Z.even f then f else (f + 1)%Z.

(** [a / b] *)
Definition truediv (a b : R) : result R :=
  if Req_dec_T b 0 then Raise ZeroDivisionError else Ok (a / b).

(** One-argument [math.log]: a domain error outside the positive reals. *)
Definition natural_log (x : R) : result R :=
  if Rle_dec x 0 then Raise ValueError else Ok (ln x).

(** [math.log(x, base)] is [log(x) / log(base)]. *)
Definition math_log (x base : R) : result R :=
  num ← natural_log x;
  den ← natural_log base;
  truediv num den.

(** [2 ** n] for an integer [n] of either sign. *)
Definition pow2 (n : Z) : R := powerRZ 2 n.

(** [math.pi] *)
Definition math_pi : R := PI.

(** Binary logarithm. *)
Definition log2 (x : R) : R := ln x / ln 2.

Lemma floor_spec (x : R) : IZR (floor x) <= x < IZR (floor x) + 1.
Proof.
  unfold floor. rewrite minus_IZR.
  destruct (archimed x) as [H1 H2]. lra.
Qed.

Lemma floor_unique (x : R) (n : Z) : IZR n <= x < IZR n + 1 -> floor x = n.
Proof.
  intros [H1 H2]. unfold floor.
  assert (Hup : (n + 1)%Z = up x).
  { apply tech_up; rewrite plus_IZR; lra. }
  lia.
Qed.

Lemma math_ceil_spec (x : R) : x <= IZR (math_ceil x) < x + 1.
Proof.
  unfold math_ceil. rewrite opp_IZR.
  destruct (floor_spec (- x)) as [H1 H2]. lra.
Qed.

Lemma math_ceil_unique (x : R) (n : Z) : x <= IZR n < x + 1 -> math_ceil x = n.
Proof.
  intros [H1 H2]. unfold math_ceil.
  rewrite (floor_unique (- x) (- n)); [lia |].
  rewrite opp_IZR. lra.
Qed.

Lemma py_round_near (x : R) : Rabs (x - IZR (py_round x)) <= 1 / 2.
Proof.
  unfold py_round. destruct (floor_spec x) as [H1 H2].
  destruct (Rlt_dec (x - IZR (floor x)) (1 / 2)) as [Hlt | Hge].
  - apply Rabs_le. lra.
  - destruct (Rlt_dec (1 / 2) (x - IZR (floor x))) as [Hgt | Hle].
    + rewrite plus_IZR. apply Rabs_le. lra.
    + destruct (Z.even (floor x)); [| rewrite plus_IZR]; apply Rabs_le; lra.
Qed.

Lemma ln_2_pos : 0 < ln 2.
Proof. pose proof ln_lt_2. lra. Qed.

Lemma math_log_base2 (x : R) : 0 < x -> math_log x 2 = Ok (log2 x).
Proof.
  intros Hx. unfold math_log, natural_log, truediv, log2.
  destruct (Rle_dec x 0) as [H | _]; [lra |]. cbn [mbind result_bind].
  destruct (Rle_dec 2 0) as [H | _]; [lra |]. cbn [mbind result_bind].
  destruct (Req_dec_T (ln 2) 0) as [H | _]; [pose proof ln_2_pos; lra |].
  reflexivity.
Qed.

Example round_half_down : py_round (5 / 2) = 2%Z.
Proof.
  unfold py_round. rewrite (floor_unique (5 / 2) 2) by lra.
  destruct (Rlt_dec _ _) as [H | _]; [lra |].
  destruct (Rlt_dec _ _) as [H | _]; [lra |]. reflexivity.
Qed.

Example round_half_up : py_round (7 / 2) = 4%Z.
Proof.
  unfold py_round. rewrite (floor_unique (7 / 2) 3) by lra.
  destruct (Rlt_dec _ _) as [H | _]; [lra |].
  destruct (Rlt_dec _ _) as [H | _]; [lra |]. reflexivity.
Qed.

Example ceil_up : math_ceil (21 / 10) = 3%Z.
Proof. apply math_ceil_unique. lra. Qed.

End PyMath.

(** ** Map image capture (models.py, lines 195-234) *)

Module MapImage.

Import PyMath.
Local Open Scope R_scope.

Definition RADIUS : Z := 6378137.
Definition CIRCUM : R := 2 * math_pi * IZR RADIUS.

(** [geom.extent]: (xmin, ymin, xmax, ymax). *)
Definition Extent : Type := R * R * R * R.

(** [max(extent[2] - extent[0], extent[3] - extent[1])] (line 216). *)
Definition max_side (extent : Extent) : R :=
  let '(x0, y0, x1, y1) := extent in Rmax (x1 - x0) (y1 - y0).

(** The body of [if length:] (lines 218-223): the zoom and the size.
    Python floats are read as real numbers: the rounding of binary64
    arithmetic and of the platform's logarithm is not modelled. *)
Definition zoom_and_size (length : R) (hint_size : Z) : result (Z * Z) :=
  length_per_tile ← truediv (256 * length) (IZR hint_size);
  ratio ← truediv CIRCUM length_per_tile;
  lg ← math_log ratio 2;
  let zoom := py_round lg in
  quotient ← truediv (length * 1.1 * 256 * pow2 zoom) CIRCUM;
  Ok (zoom, math_ceil quotient).

(** Lines 217-225: a zero length is falsy and selects the configured
    size. *)
Definition capture_size (length : R) (MAP_CAPTURE_SIZE : Z) : result Z :=
  if Req_dec_T length 0 then Ok MAP_CAPTURE_SIZE
  else zs ← zoom_and_size length MAP_CAPTURE_SIZE; Ok (snd zs).

(** The zoom and the size of the tile formula, each as one expression. *)
Definition claimed_zoom (L : R) (hint : Z) : Z :=
  py_round (log2 (CIRCUM * IZR hint / (256 * L))).

Definition claimed_size (L : R) (hint : Z) : Z :=
  math_ceil (L * 1.1 * 256 * pow2 (claimed_zoom L hint) / CIRCUM).

(** [os.path.join(a, b)] of posixpath. *)
Fixpoint ends_with_sep (s : string) : bool :=
  match s with
  | EmptyString => false
  | String c EmptyString => Ascii.eqb c "/"
  | String _ rest => ends_with_sep rest
  end.

Definition os_path_join (a b : string) : string :=
  match b with
  | String "/" _ => b
  | _ =>
      match a with
      | EmptyString => b
      | _ => if ends_with_sep a then (a ++ b)%string
             else ((a ++ "/") ++ b)%string
      end
  end.

(** [str(pk)] for an integer key or [None]. *)
Definition str_pk (pk : option Z) : string :=
  match pk with
  | Some n => pretty n
  | None => "None"
  end.

(** The settings read by the method. *)
Record Settings : Type := mkSettings {
  MEDIA_ROOT : string;
  MAP_CAPTURE_SIZE : Z;
  DATE_UPDATE_FIELD_NAME : string
}.

(** The instance: model name, primary key, its date attributes, and the
    result of [get_printcontext()] when the class defines that method. *)
Record MapEntity : Type := mkMapEntity {
  model_name : string;
  pk : option Z;
  attributes : Latest.Row;
  get_printcontext : option string
}.

Definition capture_map_image_waitfor : string := ".leaflet-tile-loaded".

(** A PIL image as the method builds it: mode, size, background colour,
    and the texts drawn (position, text, font file, font size, fill). *)
Record Image : Type := mkImage {
  image_mode : string;
  image_size : Z * Z;
  image_color : Z * Z * Z;
  image_texts : list ((Z * Z) * string * (string * Z) * (Z * Z * Z))
}.

(** Calls with an effect on the disk or on the geometry, in order. *)
Inductive Call : Type :=
  | Makedirs (path : string)
  | Transform (srid : Z)
  | ImageSave (image : Image) (path : string)
  | CaptureMapImage (url path : string) (size : Z) (waitfor : string)
                    (printcontext : option string).

Section Effects.
(** The disk and the geometry library are left abstract, and so are the
    helpers of [mapentity.helpers] and the URL registry, which the
    method only calls. *)
Context {FileSystem Geometry : Type}.
Variable os_path_exists : string -> FileSystem -> bool.
Variable os_makedirs : string -> FileSystem -> FileSystem.
Variable is_file_uptodate :
  string -> option Latest.datetime -> FileSystem -> bool * FileSystem.
Variable image_save : Image -> string -> FileSystem -> FileSystem.
Variable capture_map_image :
  string -> string -> Z -> string -> option string -> FileSystem -> FileSystem.
Variable smart_urljoin : string -> string -> string.
Variable get_detail_url : MapEntity -> result string.
Variable transform : Z -> Geometry -> Geometry.
Variable extent : Geometry -> Extent.

Variable settings : Settings.

(** What the method can change: the disk, the geometry held by the
    instance ([transform] works in place), and the log of calls. *)
Record State : Type := mkState {
  fs : FileSystem;
  geom : option Geometry;
  calls : list Call
}.

Definition Eff (A : Type) : Type := State -> result (A * State).

Definition ret {A : Type} (a : A) : Eff A := fun st => Ok (a, st).

Local Instance eff_ret : MRet Eff := @ret.
Local Instance eff_bind : MBind Eff := fun A B k m st =>
  match m st with
  | Ok (a, st') => k a st'
  | Raise e => Raise e
  end.

Definition lift {A : Type} (r : result A) : Eff A :=
  fun st => match r with Ok a => Ok (a, st) | Raise e => Raise e end.

Definition on_disk {A : Type} (f : FileSystem -> A * FileSystem) : Eff A :=
  fun st => let '(a, fs') := f (fs st) in
            Ok (a, mkState fs' (geom st) (calls st)).

Definition record (c : Call) : Eff unit :=
  fun st => Ok (tt, mkState (fs st) (geom st) (calls st ++ [c])).

(** [BaseMapEntityMixin.get_geom] (lines 132-135). *)
Definition get_geom : Eff (option Geometry) :=
  fun st => Ok (geom st, st).

(** [BaseMapEntityMixin.get_map_image_path] (lines 230-234). *)
Definition get_map_image_path (self : MapEntity) : Eff string :=
  let basefolder := os_path_join (MEDIA_ROOT settings) "maps" in
  found ← on_disk (fun d => (os_path_exists basefolder d, d));
  (if negb (found : bool) then
     (on_disk (fun d => (tt, os_makedirs basefolder d));;
      record (Makedirs basefolder)) : Eff unit
   else ret tt);;
  ret (os_path_join basefolder
          ((((model_name self ++ "-") ++ str_pk (pk self)) ++ ".png")%string)).

(** [BaseMapEntityMixin.get_map_image_extent] (lines 195-199). *)
Definition get_map_image_extent (srid : Z) : Eff Extent :=
  fun st =>
    match geom st with
    | None => Raise AttributeError
    | Some obj =>
        let obj' := transform srid obj in
        Ok (extent obj',
            mkState (fs st) (Some obj') (calls st ++ [Transform srid]))
    end.

(** The grey placeholder of lines 207-212. *)
Definition placeholder (size : Z) : Image :=
  {| image_mode := "RGB";
     image_size := (size, size);
     image_color := (192, 192, 192)%Z;
     image_texts :=
       [ ((10, 10)%Z, "This object has no geometry",
          ("/usr/share/fonts/truetype/liberation/LiberationSans-Regular.ttf",
           24%Z),
          (0, 0, 0)%Z) ] |}.

(** [BaseMapEntityMixin.prepare_map_image] (lines 201-228). *)
Definition prepare_map_image (self : MapEntity) (rooturl : string) : Eff bool :=
  path ← get_map_image_path self;
  date_update ← lift (Latest.get_date_update (DATE_UPDATE_FIELD_NAME settings)
                        (attributes self));
  uptodate ← on_disk (is_file_uptodate path date_update);
  if (uptodate : bool) then ret false
  else
    g ← get_geom;
    match (g : option Geometry) with
    | None =>
        let size := MAP_CAPTURE_SIZE settings in
        let image := placeholder size in
        on_disk (fun d => (tt, image_save image path d));;
        record (ImageSave image path);;
        ret true
    | Some _ =>
        detail ← lift (get_detail_url self);
        let url := smart_urljoin rooturl detail in
        ext ← get_map_image_extent 3857;
        let length := max_side ext in
        size ← lift (capture_size length (MAP_CAPTURE_SIZE settings));
        let printcontext := get_printcontext self in
        on_disk (fun d =>
          (tt, capture_map_image url path size capture_map_image_waitfor
                 printcontext d));;
        record (CaptureMapImage url path size capture_map_image_waitfor
                  printcontext);;
        ret true
    end.

(** *** The size arithmetic *)

Lemma CIRCUM_pos : 0 < CIRCUM.
Proof.
  unfold CIRCUM, math_pi, RADIUS.
  assert (0 < IZR 6378137) by (apply IZR_lt; lia).
  pose proof PI_RGT_0.
  apply Rmult_lt_0_compat; [lra | assumption].
Qed.

Lemma zoom_and_size_positive (L : R) (hint : Z) :
  0 < L -> (0 < hint)%Z ->
  zoom_and_size L hint = Ok (claimed_zoom L hint, claimed_size L hint).
Proof.
  intros HL Hhint. apply IZR_lt in Hhint.
  pose proof CIRCUM_pos as HC.
  assert (Htile : 0 < 256 * L / IZR hint)
    by (apply Rdiv_lt_0_compat; lra).
  assert (Hratio : 0 < CIRCUM / (256 * L / IZR hint))
    by (apply Rdiv_lt_0_compat; lra).
  unfold zoom_and_size, truediv.
  destruct (Req_dec_T (IZR hint) 0) as [H | _]; [lra |].
  cbn [mbind result_bind].
  destruct (Req_dec_T (256 * L / IZR hint) 0) as [H | _]; [lra |].
  cbn [mbind result_bind].
  rewrite (math_log_base2 _ Hratio). cbn [mbind result_bind].
  destruct (Req_dec_T CIRCUM 0) as [H | _]; [lra |].
  unfold claimed_size, claimed_zoom.
  replace (CIRCUM * IZR hint / (256 * L))
    with (CIRCUM / (256 * L / IZR hint)) by (field; lra).
  reflexivity.
Qed.

Lemma capture_size_positive (L : R) (hint : Z) :
  0 < L -> (0 < hint)%Z -> capture_size L hint = Ok (claimed_size L hint).
Proof.
  intros HL Hhint. unfold capture_size.
  destruct (Req_dec_T L 0) as [H | _]; [lra |].
  by rewrite (zoom_and_size_positive L hint HL Hhint).
Qed.

Lemma capture_size_zero (hint : Z) : capture_size 0 hint = Ok hint.
Proof.
  unfold capture_size. by destruct (Req_dec_T 0 0) as [_ | H].
Qed.

(** Taken with a zero length, the arithmetic divides by zero. *)
Lemma zoom_and_size_zero (hint : Z) :
  zoom_and_size 0 hint = Raise ZeroDivisionError.
Proof.
  unfold zoom_and_size, truediv.
  destruct (Req_dec_T (IZR hint) 0) as [_ | Hhint]; [reflexivity |].
  cbn [mbind result_bind].
  destruct (Req_dec_T (256 * 0 / IZR hint) 0) as [_ | H]; [reflexivity |].
  exfalso. apply H. unfold Rdiv. ring.
Qed.

(** *** Running the parts of the method *)

Definition basefolder : string := os_path_join (MEDIA_ROOT settings) "maps".

Definition map_image_path (self : MapEntity) : string :=
  os_path_join basefolder
    ((((model_name self ++ "-") ++ str_pk (pk self)) ++ ".png")%string).

(** The state once the path is known: the maps folder exists. *)
Definition with_maps_folder (st : State) : State :=
  if os_path_exists basefolder (fs st) then st
  else mkState (os_makedirs basefolder (fs st)) (geom st)
               (calls st ++ [Makedirs basefolder]).

(** [self.get_date_update()] as a value. *)
Definition date_update_of (self : MapEntity) : option Latest.datetime :=
  match attributes self !! DATE_UPDATE_FIELD_NAME settings with
  | Some (Some d) => Some (Latest.replace_tzinfo d Latest.UTC)
  | _ => None
  end.

Lemma bind_run {A B : Type} (m : Eff A) (k : A -> Eff B)
    (st st' : State) (a : A) :
  m st = Ok (a, st') -> (m ≫= k) st = k a st'.
Proof. intros H. unfold mbind, eff_bind. by rewrite H. Qed.

Lemma state_eta (st : State) : mkState (fs st) (geom st) (calls st) = st.
Proof. by destruct st. Qed.

Lemma get_map_image_path_run (self : MapEntity) (st : State) :
  get_map_image_path self st = Ok (map_image_path self, with_maps_folder st).
Proof.
  unfold get_map_image_path, with_maps_folder, map_image_path.
  fold basefolder. unfold mbind, eff_bind, on_disk, record, ret.
  destruct (os_path_exists basefolder (fs st)); simpl.
  - by rewrite state_eta.
  - reflexivity.
Qed.

Lemma date_update_run (self : MapEntity) (st : State) :
  lift (Latest.get_date_update (DATE_UPDATE_FIELD_NAME settings)
          (attributes self)) st
    = Ok (date_update_of self, st).
Proof. unfold lift. by rewrite Latest.get_date_update_ok. Qed.

(** The method up to the answer of the freshness check. *)
Lemma prepare_map_image_checked (self : MapEntity) (rooturl : string)
    (st : State) (uptodate : bool) (disk : FileSystem) :
  is_file_uptodate (map_image_path self) (date_update_of self)
                   (fs (with_maps_folder st)) = (uptodate, disk) ->
  prepare_map_image self rooturl st =
    (if uptodate then ret false
     else
       g ← get_geom;
       match (g : option Geometry) with
       | None =>
           let size := MAP_CAPTURE_SIZE settings in
           let image := placeholder size in
           on_disk (fun d => (tt, image_save image (map_image_path self) d));;
           record (ImageSave image (map_image_path self));;
           ret true
       | Some _ =>
           detail ← lift (get_detail_url self);
           let url := smart_urljoin rooturl detail in
           ext ← get_map_image_extent 3857;
           let length := max_side ext in
           size ← lift (capture_size length (MAP_CAPTURE_SIZE settings));
           let printcontext := get_printcontext self in
           on_disk (fun d =>
             (tt, capture_map_image url (map_image_path self) size
                    capture_map_image_waitfor printcontext d));;
           record (CaptureMapImage url (map_image_path self) size
                     capture_map_image_waitfor printcontext);;
           ret true
       end)
    (mkState disk (geom (with_maps_folder st)) (calls (with_maps_folder st))).
Proof.
  intros Hcheck. unfold prepare_map_image.
  rewrite (bind_run _ _ _ _ _ (get_map_image_path_run self st)).
  rewrite (bind_run _ _ _ _ _ (date_update_run self (with_maps_folder st))).
  erewrite bind_run; [reflexivity |].
  unfold on_disk. by rewrite Hcheck.
Qed.

Lemma with_maps_folder_geom (st : State) :
  geom (with_maps_folder st) = geom st.
Proof.
  unfold with_maps_folder. by destruct (os_path_exists basefolder (fs st)).
Qed.

(** The capture branch: stale file, a geometry, a size that evaluates. *)
Lemma prepare_map_image_captures (self : MapEntity) (rooturl : string)
    (st : State) (disk : FileSystem) (g : Geometry) (detail : string)
    (size : Z) :
  is_file_uptodate (map_image_path self) (date_update_of self)
                   (fs (with_maps_folder st)) = (false, disk) ->
  geom st = Some g ->
  get_detail_url self = Ok detail ->
  capture_size (max_side (extent (transform 3857 g)))
               (MAP_CAPTURE_SIZE settings) = Ok size ->
  prepare_map_image self rooturl st =
    Ok (true,
        mkState
          (capture_map_image (smart_urljoin rooturl detail)
             (map_image_path self) size capture_map_image_waitfor
             (get_printcontext self) disk)
          (Some (transform 3857 g))
          ((calls (with_maps_folder st) ++ [Transform 3857])
             ++ [CaptureMapImage (smart_urljoin rooturl detail)
                   (map_image_path self) size capture_map_image_waitfor
                   (get_printcontext self)])).
Proof.
  intros Hcheck Hgeom Hurl Hsize.
  rewrite (prepare_map_image_checked self rooturl st false disk Hcheck).
  unfold mbind, eff_bind, get_geom, lift, get_map_image_extent, on_disk,
    record, ret.
  cbn [geom fs calls]. rewrite with_maps_folder_geom, Hgeom, Hurl.
  cbn [geom fs calls]. by rewrite Hsize.
Qed.

(** *** The formula, in real arithmetic *)

(** [z] is the integer nearest to [x], the even one when [x] lies halfway
    between two integers. *)
Definition nearest_even_on_ties (x : R) (z : Z) : Prop :=
  Rabs (x - IZR z) <= 1 / 2
  /\ (Rabs (x - IZR z) = 1 / 2 -> Z.even z = true).



Lemma nearest_even_on_ties_unique (x : R) (z1 z2 : Z) :
  nearest_even_on_ties x z1 -> nearest_even_on_ties x z2 -> z1 = z2.
Proof.
  intros [Hn1 He1] [Hn2 He2].
  assert (Hb1 : - (1 / 2) <= x - IZR z1 <= 1 / 2).
  { unfold Rabs in Hn1. destruct (Rcase_abs (x - IZR z1)); lra. }
  assert (Hb2 : - (1 / 2) <= x - IZR z2 <= 1 / 2).
  { unfold Rabs in Hn2. destruct (Rcase_abs (x - IZR z2)); lra. }
  assert (Hclose : (z1 - 1 <= z2 <= z1 + 1)%Z).
  { split; apply le_IZR; [rewrite minus_IZR | rewrite plus_IZR]; lra. }
  destruct (Z.eq_dec z1 z2) as [Heq | Hne]; [exact Heq |]. exfalso.
  assert (Hcase : (z2 = z1 + 1 \/ z2 = z1 - 1)%Z) by lia.
  destruct Hcase as [-> | ->].
  - rewrite plus_IZR in *.
    assert (Ht1 : Rabs (x - IZR z1) = 1 / 2)
      by (rewrite Rabs_pos_eq; lra).
    assert (Ht2 : Rabs (x - (IZR z1 + 1)) = 1 / 2)
      by (rewrite Rabs_left1; lra).
    specialize (He1 Ht1). specialize (He2 Ht2).
    rewrite Z.add_1_r, Z.even_succ, <- Z.negb_even, He1 in He2.
    discriminate He2.
  - rewrite minus_IZR in *.
    assert (Ht1 : Rabs (x - IZR z1) = 1 / 2)
      by (rewrite Rabs_left1; lra).
    assert (Ht2 : Rabs (x - (IZR z1 - 1)) = 1 / 2)
      by (rewrite Rabs_pos_eq; lra).
    specialize (He1 Ht1). specialize (He2 Ht2).
    rewrite Z.sub_1_r, Z.even_pred, <- Z.negb_even, He1 in He2.
    discriminate He2.
Qed.



(** C9: for an object whose extent is degenerate (maximal side zero),
    the size is the configured MAP_CAPTURE_SIZE whatever its value and
    nothing is raised, although the zoom and size arithmetic taken at
    that length divides by zero: the arithmetic is not evaluated. *)
Theorem degenerate_extent_uses_configured_size (self : MapEntity)
    (rooturl : string) (st : State) (disk : FileSystem) (g : Geometry)
    (detail : string) :
  is_file_uptodate (map_image_path self) (date_update_of self)
                   (fs (with_maps_folder st)) = (false, disk) ->
  geom st = Some g ->
  get_detail_url self = Ok detail ->
  max_side (extent (transform 3857 g)) = 0 ->
  capture_size 0 (MAP_CAPTURE_SIZE settings) = Ok (MAP_CAPTURE_SIZE settings)
  /\ zoom_and_size 0 (MAP_CAPTURE_SIZE settings) = Raise ZeroDivisionError
  /\ exists st',
       prepare_map_image self rooturl st = Ok (true, st')
       /\ last (calls st')
          = Some (CaptureMapImage (smart_urljoin rooturl detail)
                    (map_image_path self) (MAP_CAPTURE_SIZE settings)
                    capture_map_image_waitfor (get_printcontext self)).
Proof.
  intros Hcheck Hgeom Hurl Hside.
  split; [apply capture_size_zero |]. split; [apply zoom_and_size_zero |].
  eexists. split.
  - eapply prepare_map_image_captures; eauto.
    rewrite Hside. apply capture_size_zero.
  - cbn [calls]. apply last_snoc.
Qed.

(** C10: when the map image on disk (in the existing maps folder) is
    found up to date by the check, which leaves the disk as it is,
    [prepare_map_image] returns False and the state is the one it
    started from: same disk, no call recorded (no image saved, no
    capture), same geometry. *)
Theorem uptodate_image_is_left_alone (self : MapEntity) (rooturl : string)
    (st : State) :
  os_path_exists basefolder (fs st) = true ->
  is_file_uptodate (map_image_path self) (date_update_of self) (fs st)
    = (true, fs st) ->
  prepare_map_image self rooturl st = Ok (false, st).
Proof.
  intros Hfolder Hcheck.
  assert (Hst : with_maps_folder st = st)
    by (unfold with_maps_folder; by rewrite Hfolder).
  rewrite (prepare_map_image_checked self rooturl st true (fs st))
    by (by rewrite Hst).
  rewrite Hst. unfold ret. by rewrite state_eta.
Qed.
(** *** Every outcome of the size arithmetic *)

Lemma zoom_and_size_same_sign (L : R) (hint : Z) :
  0 < L * IZR hint ->
  zoom_and_size L hint = Ok (claimed_zoom L hint, claimed_size L hint).
Proof.
  intros Hsign. pose proof CIRCUM_pos as HC.
  assert (HL : L <> 0) by (intros ->; lra).
  assert (Hh : IZR hint <> 0) by (intros E; rewrite E in Hsign; lra).
  assert (Htile : 0 < 256 * L / IZR hint).
  { replace (256 * L / IZR hint)
      with (256 * (L * IZR hint) * (/ IZR hint * / IZR hint)) by (field; lra).
    apply Rmult_lt_0_compat; [lra |].
    destruct (Rlt_dec 0 (IZR hint)) as [Hp | Hn].
    - apply Rmult_lt_0_compat; by apply Rinv_0_lt_compat.
    - assert (Hneg : / IZR hint < 0) by (apply Rinv_lt_0_compat; lra). nra. }
  assert (Hratio : 0 < CIRCUM / (256 * L / IZR hint))
    by (apply Rdiv_lt_0_compat; lra).
  unfold zoom_and_size, truediv.
  destruct (Req_dec_T (IZR hint) 0) as [H | _]; [lra |].
  cbn [mbind result_bind].
  destruct (Req_dec_T (256 * L / IZR hint) 0) as [H | _]; [lra |].
  cbn [mbind result_bind].
  rewrite (math_log_base2 _ Hratio). cbn [mbind result_bind].
  destruct (Req_dec_T CIRCUM 0) as [H | _]; [lra |].
  unfold claimed_size, claimed_zoom.
  replace (CIRCUM * IZR hint / (256 * L))
    with (CIRCUM / (256 * L / IZR hint)) by (field; lra).
  reflexivity.
Qed.

Lemma capture_size_without_hint (L : R) :
  L <> 0 -> capture_size L 0 = Raise ZeroDivisionError.
Proof.
  intros HL. unfold capture_size, zoom_and_size, truediv.
  destruct (Req_dec_T L 0) as [H | _]; [contradiction |].
  by destruct (Req_dec_T 0 0) as [_ | H].
Qed.

Lemma capture_size_opposite_signs (L : R) (hint : Z) :
  L * IZR hint < 0 -> capture_size L hint = Raise ValueError.
Proof.
  intros Hsign. pose proof CIRCUM_pos as HC.
  assert (HL : L <> 0) by (intros ->; lra).
  assert (Hh : IZR hint <> 0) by (intros E; rewrite E in Hsign; lra).
  assert (Htile : 256 * L / IZR hint < 0).
  { replace (256 * L / IZR hint)
      with (256 * (L * IZR hint) * (/ IZR hint * / IZR hint)) by (field; lra).
    assert (0 < / IZR hint * / IZR hint).
    { destruct (Rlt_dec 0 (IZR hint)) as [Hp | Hn].
      - apply Rmult_lt_0_compat; by apply Rinv_0_lt_compat.
      - assert (Hneg : / IZR hint < 0) by (apply Rinv_lt_0_compat; lra). nra. }
    nra. }
  assert (Hratio : CIRCUM / (256 * L / IZR hint) <= 0).
  { unfold Rdiv at 1.
    assert (/ (256 * L / IZR hint) < 0) by (by apply Rinv_lt_0_compat). nra. }
  unfold capture_size, zoom_and_size, truediv.
  destruct (Req_dec_T L 0) as [H | _]; [contradiction |].
  destruct (Req_dec_T (IZR hint) 0) as [H | _]; [contradiction |].
  cbn [mbind result_bind].
  destruct (Req_dec_T (256 * L / IZR hint) 0) as [H | _]; [lra |].
  cbn [mbind result_bind]. unfold math_log, natural_log.
  by destruct (Rle_dec (CIRCUM / (256 * L / IZR hint)) 0) as [_ | H].
Qed.

Lemma capture_size_same_sign (L : R) (hint : Z) :
  0 < L * IZR hint -> capture_size L hint = Ok (claimed_size L hint).
Proof.
  intros Hsign. unfold capture_size.
  destruct (Req_dec_T L 0) as [-> | _]; [lra |].
  by rewrite (zoom_and_size_same_sign L hint Hsign).
Qed.

(** Why a size computation fails, when it does. *)
Lemma capture_size_raises (L : R) (hint : Z) (e : exn) :
  capture_size L hint = Raise e ->
  L <> 0
  /\ ((hint = 0%Z /\ e = ZeroDivisionError)
      \/ (L * IZR hint < 0 /\ e = ValueError)).
Proof.
  intros Hraise.
  destruct (Req_dec_T L 0) as [-> | HL].
  { rewrite capture_size_zero in Hraise. discriminate Hraise. }
  split; [exact HL |].
  destruct (Rtotal_order (L * IZR hint) 0) as [Hneg | [Hzero | Hpos]].
  - right. split; [exact Hneg |].
    rewrite (capture_size_opposite_signs L hint Hneg) in Hraise.
    by injection Hraise.
  - left. apply Rmult_integral in Hzero as [-> | Hh]; [contradiction |].
    apply eq_IZR_R0 in Hh. subst hint. split; [reflexivity |].
    rewrite (capture_size_without_hint L HL) in Hraise. by injection Hraise.
  - rewrite (capture_size_same_sign L hint Hpos) in Hraise. discriminate Hraise.
Qed.


(** *** How far the size is from the configured one *)

Lemma exp_le (x y : R) : x <= y -> exp x <= exp y.
Proof.
  intros [Hlt | ->]; [left; by apply exp_increasing | right; reflexivity].
Qed.

Lemma py_round_within (x : R) : - (1 / 2) <= x - IZR (py_round x) <= 1 / 2.
Proof.
  pose proof (py_round_near x) as H. unfold Rabs in H.
  destruct (Rcase_abs (x - IZR (py_round x))); lra.
Qed.

(** Rounding the binary logarithm keeps 2^zoom within a factor sqrt 2 of
    the ratio: the square of the quotient lies between 1/2 and 2. *)
Lemma zoom_factor_bounds (ratio : R) :
  0 < ratio ->
  0 < pow2 (py_round (log2 ratio)) / ratio
  /\ 1 / 2 <= (pow2 (py_round (log2 ratio)) / ratio)
                * (pow2 (py_round (log2 ratio)) / ratio) <= 2.
Proof.
  intros Hratio. pose proof ln_2_pos as Hln2.
  pose proof (py_round_within (log2 ratio)) as Hround.
  set (z := IZR (py_round (log2 ratio))) in *.
  assert (Hpow : pow2 (py_round (log2 ratio)) = exp (z * ln 2)).
  { unfold pow2. rewrite powerRZ_Rpower by lra. reflexivity. }
  assert (Hr : ratio = exp (log2 ratio * ln 2)).
  { unfold log2. replace (ln ratio / ln 2 * ln 2) with (ln ratio) by (field; lra).
    by rewrite exp_ln. }
  assert (Ht : pow2 (py_round (log2 ratio)) / ratio
               = exp ((z - log2 ratio) * ln 2)).
  { rewrite Hpow. rewrite Hr at 1. unfold Rdiv.
    rewrite <- exp_Ropp, <- exp_plus. f_equal. ring. }
  rewrite Ht. split; [apply exp_pos |].
  rewrite <- exp_plus.
  assert (Hlo : exp (- ln 2) = 1 / 2).
  { rewrite exp_Ropp, exp_ln by lra. lra. }
  assert (Hhi : exp (ln 2) = 2) by (apply exp_ln; lra).
  split.
  - apply Rle_trans with (exp (- ln 2)); [by rewrite Hlo; right |].
    apply exp_le. nra.
  - apply Rle_trans with (exp (ln 2)); [| by rewrite Hhi; right].
    apply exp_le. nra.
Qed.

(** X16: with a positive length and a positive configured size, the size
    passed to the capture stays between 77 % of the configured size and
    156 % of it plus one pixel. *)
Theorem capture_size_near_configured_size (L : R) (hint size : Z) :
  0 < L ->
  (0 < hint)%Z ->
  capture_size L hint = Ok size ->
  (77 * hint <= 100 * size)%Z /\ (100 * size < 156 * hint + 100)%Z.
Proof.
  intros HL Hhint Hsize.
  rewrite (capture_size_positive L hint HL Hhint) in Hsize.
  injection Hsize as <-.
  pose proof CIRCUM_pos as HC. apply IZR_lt in Hhint.
  set (h := IZR hint) in *.
  assert (Hratio : 0 < CIRCUM * h / (256 * L))
    by (apply Rdiv_lt_0_compat; nra).
  destruct (zoom_factor_bounds _ Hratio) as (Hpos & Hlo & Hhi).
  unfold claimed_size, claimed_zoom. fold h.
  set (t := pow2 (py_round (log2 (CIRCUM * h / (256 * L))))
            / (CIRCUM * h / (256 * L))) in *.
  assert (Hx : L * 1.1 * 256
               * pow2 (py_round (log2 (CIRCUM * h / (256 * L)))) / CIRCUM
               = 11 / 10 * h * t).
  { unfold t. replace 1.1 with (11 / 10) by lra. field. lra. }
  rewrite Hx.
  assert (Ht1 : 7071 / 10000 <= t) by nra.
  assert (Ht2 : t <= 14143 / 10000) by nra.
  destruct (math_ceil_spec (11 / 10 * h * t)) as [Hc1 Hc2].
  split.
  - apply le_IZR. rewrite !mult_IZR. fold h. nra.
  - apply lt_IZR. rewrite plus_IZR, !mult_IZR. fold h. nra.
Qed.

(** *** Larger extents, lower zooms *)

Lemma py_round_monotone (x y : R) : x <= y -> (py_round x <= py_round y)%Z.
Proof.
  intros Hxy.
  destruct (Z_lt_le_dec (py_round y) (py_round x)) as [Hlt | Hle]; [| exact Hle].
  exfalso.
  pose proof (py_round_within x) as Hx. pose proof (py_round_within y) as Hy.
  assert (Hstep : IZR (py_round y) + 1 <= IZR (py_round x)).
  { rewrite <- plus_IZR. apply IZR_le. lia. }
  assert (Heq : x = y) by lra. subst y. lia.
Qed.

Lemma log2_monotone (x y : R) : 0 < x -> x <= y -> log2 x <= log2 y.
Proof.
  intros Hx [Hlt | ->]; [| right; reflexivity].
  unfold log2. pose proof ln_2_pos.
  assert (ln x < ln y) by (by apply ln_increasing).
  apply Rmult_le_compat_r; [| lra].
  left. by apply Rinv_0_lt_compat.
Qed.

(** X17: for a positive configured size, a longer extent never gets a
    higher zoom than a shorter one. *)
Theorem zoom_decreases_with_length (L1 L2 : R) (hint zoom1 size1 zoom2 size2 : Z) :
  0 < L1 -> L1 <= L2 -> (0 < hint)%Z ->
  zoom_and_size L1 hint = Ok (zoom1, size1) ->
  zoom_and_size L2 hint = Ok (zoom2, size2) ->
  (zoom2 <= zoom1)%Z.
Proof.
  intros HL1 HL12 Hhint H1 H2.
  rewrite zoom_and_size_positive in H1 by (done || lra).
  rewrite zoom_and_size_positive in H2 by (done || lra).
  injection H1 as <- _. injection H2 as <- _.
  pose proof CIRCUM_pos as HC. apply IZR_lt in Hhint.
  unfold claimed_zoom. apply py_round_monotone, log2_monotone.
  - apply Rdiv_lt_0_compat; nra.
  - unfold Rdiv. apply Rmult_le_compat_l; [nra |].
    apply Rinv_le_contravar; lra.
Qed.

(** *** The branches of the method *)

Lemma prepare_map_image_placeholder (self : MapEntity) (rooturl : string)
    (st : State) (disk : FileSystem) :
  is_file_uptodate (map_image_path self) (date_update_of self)
                   (fs (with_maps_folder st)) = (false, disk) ->
  geom st = None ->
  prepare_map_image self rooturl st =
    Ok (true,
        mkState
          (image_save (placeholder (MAP_CAPTURE_SIZE settings))
                      (map_image_path self) disk)
          None
          (calls (with_maps_folder st)
             ++ [ImageSave (placeholder (MAP_CAPTURE_SIZE settings))
                           (map_image_path self)])).
Proof.
  intros Hcheck Hgeom.
  rewrite (prepare_map_image_checked self rooturl st false disk Hcheck).
  unfold mbind, eff_bind, get_geom, on_disk, record, ret.
  cbn [geom fs calls]. by rewrite with_maps_folder_geom, Hgeom.
Qed.

(** X18: an object without geometry whose image is stale gets the grey
    placeholder, a square of the configured size, saved at its image
    path; the method returns True without asking for the detail URL and
    without any capture. *)
Theorem placeholder_without_geometry (self : MapEntity) (rooturl : string)
    (st : State) (disk : FileSystem) :
  is_file_uptodate (map_image_path self) (date_update_of self)
                   (fs (with_maps_folder st)) = (false, disk) ->
  geom st = None ->
  image_size (placeholder (MAP_CAPTURE_SIZE settings))
    = (MAP_CAPTURE_SIZE settings, MAP_CAPTURE_SIZE settings)
  /\ prepare_map_image self rooturl st =
      Ok (true,
          mkState
            (image_save (placeholder (MAP_CAPTURE_SIZE settings))
                        (map_image_path self) disk)
            None
            (calls (with_maps_folder st)
               ++ [ImageSave (placeholder (MAP_CAPTURE_SIZE settings))
                             (map_image_path self)])).
Proof.
  intros Hcheck Hgeom. split; [reflexivity |].
  by apply prepare_map_image_placeholder.
Qed.

(** The capture branch when the detail URL cannot be built, and when the
    size arithmetic fails. *)
Lemma prepare_map_image_url_error (self : MapEntity) (rooturl : string)
    (st : State) (disk : FileSystem) (g : Geometry) (e : exn) :
  is_file_uptodate (map_image_path self) (date_update_of self)
                   (fs (with_maps_folder st)) = (false, disk) ->
  geom st = Some g ->
  get_detail_url self = Raise e ->
  prepare_map_image self rooturl st = Raise e.
Proof.
  intros Hcheck Hgeom Hurl.
  rewrite (prepare_map_image_checked self rooturl st false disk Hcheck).
  unfold mbind, eff_bind, get_geom, lift.
  cbn [geom fs calls]. by rewrite with_maps_folder_geom, Hgeom, Hurl.
Qed.

Lemma prepare_map_image_size_error (self : MapEntity) (rooturl : string)
    (st : State) (disk : FileSystem) (g : Geometry) (detail : string)
    (e : exn) :
  is_file_uptodate (map_image_path self) (date_update_of self)
                   (fs (with_maps_folder st)) = (false, disk) ->
  geom st = Some g ->
  get_detail_url self = Ok detail ->
  capture_size (max_side (extent (transform 3857 g)))
               (MAP_CAPTURE_SIZE settings) = Raise e ->
  prepare_map_image self rooturl st = Raise e.
Proof.
  intros Hcheck Hgeom Hurl Hsize.
  rewrite (prepare_map_image_checked self rooturl st false disk Hcheck).
  unfold mbind, eff_bind, get_geom, lift, get_map_image_extent.
  cbn [geom fs calls]. rewrite with_maps_folder_geom, Hgeom, Hurl.
  cbn [geom fs calls]. by rewrite Hsize.
Qed.

(** A call that writes the image file at [path]. *)
Definition writes_image (path : string) (c : Call) : Prop :=
  match c with
  | ImageSave _ p => p = path
  | CaptureMapImage _ p _ _ _ => p = path
  | _ => False
  end.

(** X19: whenever the method returns, it returns False exactly when the
    check found the file up to date, and then nothing happened beyond the
    check; and when it returns True its last call wrote the image of the
    object, the placeholder for an object without geometry and a capture
    otherwise. *)
Theorem prepare_map_image_returns (self : MapEntity) (rooturl : string)
    (st st' : State) (result : bool) :
  prepare_map_image self rooturl st = Ok (result, st') ->
  result = negb (fst (is_file_uptodate (map_image_path self)
                        (date_update_of self) (fs (with_maps_folder st))))
  /\ (result = false ->
        st' = mkState (snd (is_file_uptodate (map_image_path self)
                             (date_update_of self) (fs (with_maps_folder st))))
                      (geom st) (calls (with_maps_folder st)))
  /\ (result = true ->
        exists c, last (calls st') = Some c
                  /\ writes_image (map_image_path self) c
                  /\ (geom st = None <-> exists image p, c = ImageSave image p)).
Proof.
  intros Hrun.
  destruct (is_file_uptodate (map_image_path self) (date_update_of self)
              (fs (with_maps_folder st))) as [uptodate disk] eqn:Hcheck.
  cbn [fst snd]. destruct uptodate.
  - rewrite (prepare_map_image_checked self rooturl st true disk Hcheck) in Hrun.
    unfold ret in Hrun. injection Hrun as <- <-.
    rewrite with_maps_folder_geom. repeat split; discriminate.
  - destruct (geom st) as [g |] eqn:Hgeom.
    + destruct (get_detail_url self) as [detail | e] eqn:Hurl.
      * destruct (capture_size (max_side (extent (transform 3857 g)))
                    (MAP_CAPTURE_SIZE settings)) as [size | e] eqn:Hsize.
        -- rewrite (prepare_map_image_captures self rooturl st disk g detail
                      size Hcheck Hgeom Hurl Hsize) in Hrun.
           injection Hrun as <- <-.
           split; [reflexivity |]. split; [discriminate |]. intros _.
           eexists. cbn [calls]. split; [apply last_snoc |].
           split; [reflexivity |].
           split; [discriminate | intros (image & p & H); discriminate H].
        -- rewrite (prepare_map_image_size_error self rooturl st disk g detail
                      e Hcheck Hgeom Hurl Hsize) in Hrun.
           discriminate Hrun.
      * rewrite (prepare_map_image_url_error self rooturl st disk g e
                   Hcheck Hgeom Hurl) in Hrun.
        discriminate Hrun.
    + rewrite (prepare_map_image_placeholder self rooturl st disk
                 Hcheck Hgeom) in Hrun.
      injection Hrun as <- <-.
      split; [reflexivity |]. split; [discriminate |]. intros _.
      eexists. cbn [calls]. split; [apply last_snoc |].
      split; [reflexivity |]. split; [eauto | reflexivity].
Qed.

(** X20: in the capture branch (image stale, geometry present, the
    calls made before having returned), an exception raised by
    [get_detail_url] is raised unchanged, and with a configured size of
    zero an extent of non-zero length raises ZeroDivisionError instead of
    capturing. *)
Theorem prepare_map_image_propagates_errors (self : MapEntity)
    (rooturl : string) (st : State) (disk : FileSystem) (g : Geometry) :
  is_file_uptodate (map_image_path self) (date_update_of self)
                   (fs (with_maps_folder st)) = (false, disk) ->
  geom st = Some g ->
  (forall e, get_detail_url self = Raise e ->
     prepare_map_image self rooturl st = Raise e)
  /\ (forall detail, get_detail_url self = Ok detail ->
        max_side (extent (transform 3857 g)) <> 0 ->
        MAP_CAPTURE_SIZE settings = 0%Z ->
        prepare_map_image self rooturl st = Raise ZeroDivisionError).
Proof.
  intros Hcheck Hgeom. split.
  - intros e Hurl. by apply prepare_map_image_url_error with disk g.
  - intros detail Hurl Hside Hzero.
    apply prepare_map_image_size_error with disk g detail; try done.
    rewrite Hzero. by apply capture_size_without_hint.
Qed.

(** X21: [get_map_image_path] makes sure of the maps folder once: run
    again on the state it leaves, it returns the same path and changes
    nothing (a folder just made exists). *)
Theorem get_map_image_path_settles (self : MapEntity) (st st1 : State)
    (path : string) :
  (forall d, os_path_exists basefolder (os_makedirs basefolder d) = true) ->
  get_map_image_path self st = Ok (path, st1) ->
  os_path_exists basefolder (fs st1) = true
  /\ get_map_image_path self st1 = Ok (path, st1)
  /\ geom st1 = geom st.
Proof.
  intros Hmade Hrun. rewrite get_map_image_path_run in Hrun.
  injection Hrun as <- <-.
  assert (Hexists : os_path_exists basefolder (fs (with_maps_folder st)) = true).
  { unfold with_maps_folder.
    destruct (os_path_exists basefolder (fs st)) eqn:E; [exact E |].
    cbn [fs]. apply Hmade. }
  split; [exact Hexists |]. split; [| apply with_maps_folder_geom].
  rewrite get_map_image_path_run. do 2 f_equal.
  unfold with_maps_folder at 1. by rewrite Hexists.
Qed.

(** *** Deleting an object (models.py, lines 137-142) *)

Variable os_unlink : string -> FileSystem -> FileSystem.

(** [models.Model.delete] of the framework, reached through [super()]. *)
Variable super_delete : MapEntity -> Eff unit.

(** [BaseMapEntityMixin.delete]; the removal of the file shows on the
    disk of the state. *)
Definition delete (self : MapEntity) : Eff unit :=
  image_path ← get_map_image_path self;
  found ← on_disk (fun d => (os_path_exists image_path d, d));
  (if (found : bool) then on_disk (fun d => (tt, os_unlink image_path d))
   else ret tt);;
  super_delete self.

(** The state in which the framework's delete starts. *)
Definition without_image (self : MapEntity) (st : State) : State :=
  let st1 := with_maps_folder st in
  if os_path_exists (map_image_path self) (fs st1)
  then mkState (os_unlink (map_image_path self) (fs st1)) (geom st1) (calls st1)
  else st1.

Lemma delete_run (self : MapEntity) (st : State) :
  delete self st = super_delete self (without_image self st).
Proof.
  unfold delete.
  rewrite (bind_run _ _ _ _ _ (get_map_image_path_run self st)).
  unfold mbind, eff_bind, on_disk, ret, without_image. cbn [fs geom calls].
  destruct (os_path_exists (map_image_path self) (fs (with_maps_folder st)));
    cbn [fs geom calls]; [reflexivity |].
  by rewrite state_eta.
Qed.

(** X22: [delete] always goes on to the framework's delete, and starts it
    on a disk where the map image of the object does not exist (an
    unlinked path is gone); the geometry is untouched, and when there was
    no image the disk is the one [get_map_image_path] left. *)
Theorem delete_removes_map_image (self : MapEntity) (st : State) :
  (forall path d, os_path_exists path (os_unlink path d) = false) ->
  exists st1,
    delete self st = super_delete self st1
    /\ os_path_exists (map_image_path self) (fs st1) = false
    /\ geom st1 = geom st
    /\ calls st1 = calls (with_maps_folder st)
    /\ (os_path_exists (map_image_path self) (fs (with_maps_folder st)) = false ->
          st1 = with_maps_folder st).
Proof.
  intros Hgone. exists (without_image self st).
  split; [apply delete_run |]. unfold without_image.
  destruct (os_path_exists (map_image_path self) (fs (with_maps_folder st)))
    eqn:Hfound; cbn [fs geom calls].
  - split; [apply Hgone |]. split; [apply with_maps_folder_geom |].
    split; [reflexivity | discriminate].
  - split; [exact Hfound |]. split; [apply with_maps_folder_geom |].
    by split.
Qed.

End Effects.

(** *** A small world to run the method in *)

(** Paths to [None] for a folder and to the modification time for a
    file. *)
Abbreviation Disk := (gmap string (option Z)).

Definition disk_exists (path : string) (d : Disk) : bool :=
  bool_decide (is_Some (d !! path)).

Definition disk_makedirs (path : string) (d : Disk) : Disk :=
  <[path := None]> d.

Definition disk_is_file_uptodate (path : string)
    (date_update : option Latest.datetime) (d : Disk) : bool * Disk :=
  match d !! path, date_update with
  | Some (Some mtime), Some date =>
      (bool_decide (Latest.wall_clock date < mtime)%Z, d)
  | _, _ => (false, d)
  end.

Definition disk_write (path : string) (d : Disk) : Disk :=
  <[path := Some 1000%Z]> d.

Definition sample_detail_url (self : MapEntity) : result string :=
  Ok (("/dummymodel/" ++ str_pk (pk self)) ++ "/")%string.

Definition sample_settings : Settings := mkSettings "/media" 800 "date_update".

Definition sample_self : MapEntity :=
  mkMapEntity "dummymodel" (Some 42%Z)
    (<["date_update" := Some (Latest.mkDatetime 500 None)]> ∅) None.

Definition sample_path : string := "/media/maps/dummymodel-42.png".
Definition sample_url : string := "http://localhost/dummymodel/42/".

Definition fresh_disk : Disk :=
  <[sample_path := Some 900%Z]> (<["/media/maps" := None]> ∅).

Definition stale_disk : Disk :=
  <[sample_path := Some 100%Z]> (<["/media/maps" := None]> ∅).

(** The method in that world; a geometry is its own extent and
    [transform] keeps it. *)
Definition sample_prepare_map_image
    : MapEntity -> string -> @State Disk Extent -> result (bool * @State Disk Extent) :=
  prepare_map_image disk_exists disk_makedirs disk_is_file_uptodate
    (fun _ path d => disk_write path d)
    (fun _ path _ _ _ d => disk_write path d)
    String.append sample_detail_url (fun _ g => g) (fun g => g)
    sample_settings.

(** A side for which the ratio of the formula is 2^10. *)
Definition sample_side : R := CIRCUM * 800 / (256 * 2 ^ 10).

Definition line_extent : Extent := (0, 0, sample_side, 0).
Definition point_extent : Extent := (3, 4, 3, 4).

Lemma sample_side_pos : 0 < sample_side.
Proof.
  unfold sample_side. pose proof CIRCUM_pos.
  apply Rdiv_lt_0_compat; lra.
Qed.

Lemma line_extent_side : max_side line_extent = sample_side.
Proof.
  unfold max_side, line_extent. pose proof sample_side_pos.
  rewrite Rmax_left; lra.
Qed.

Lemma point_extent_side : max_side point_extent = 0.
Proof. unfold max_side, point_extent. rewrite Rmax_left; lra. Qed.

Lemma py_round_integer (n : Z) : py_round (IZR n) = n.
Proof.
  unfold py_round. rewrite (floor_unique (IZR n) n) by lra.
  destruct (Rlt_dec (IZR n - IZR n) (1 / 2)) as [_ | H]; [reflexivity | lra].
Qed.

Lemma log2_pow (n : nat) : log2 (2 ^ n) = INR n.
Proof.
  unfold log2. rewrite ln_pow by lra. pose proof ln_2_pos. field. lra.
Qed.

(** With the default size of 800 and that side: zoom 10, size 880. *)
Example sample_zoom : claimed_zoom sample_side 800 = 10%Z.
Proof.
  unfold claimed_zoom, sample_side. pose proof CIRCUM_pos.
  replace (CIRCUM * 800 / (256 * (CIRCUM * 800 / (256 * 2 ^ 10))))
    with (2 ^ 10) by (field; lra).
  rewrite log2_pow, INR_IZR_INZ. apply py_round_integer.
Qed.

Example sample_size : claimed_size sample_side 800 = 880%Z.
Proof.
  unfold claimed_size. rewrite sample_zoom. unfold pow2, sample_side.
  pose proof CIRCUM_pos.
  change (powerRZ 2 10) with (powerRZ 2 (Z.of_nat 10)).
  rewrite <- pow_powerRZ.
  replace 1.1 with (11 / 10) by lra.
  replace (CIRCUM * 800 / (256 * 2 ^ 10) * (11 / 10) * 256 * 2 ^ 10 / CIRCUM)
    with 880 by (field; lra).
  apply math_ceil_unique. lra.
Qed.


Lemma degenerate_extent_uses_configured_size_witness :
  exists st',
    sample_prepare_map_image sample_self "http://localhost"
      (mkState stale_disk (Some point_extent) []) = Ok (true, st')
    /\ last (calls st')
       = Some (CaptureMapImage sample_url sample_path 800
                 capture_map_image_waitfor None).
Proof.
  refine (proj2 (proj2
    (degenerate_extent_uses_configured_size
       disk_exists disk_makedirs disk_is_file_uptodate
       (fun _ path d => disk_write path d)
       (fun _ path _ _ _ d => disk_write path d)
       String.append sample_detail_url (fun _ g => g) (fun g => g)
       sample_settings sample_self "http://localhost"
       (mkState stale_disk (Some point_extent) []) stale_disk point_extent
       "/dummymodel/42/" _ _ _ _))).
  - vm_compute. reflexivity.
  - reflexivity.
  - vm_compute. reflexivity.
  - exact point_extent_side.
Defined.

Lemma uptodate_image_is_left_alone_witness :
  sample_prepare_map_image sample_self "http://localhost"
    (mkState fresh_disk (Some line_extent) [])
  = Ok (false, mkState fresh_disk (Some line_extent) []).
Proof.
  refine (uptodate_image_is_left_alone
            disk_exists disk_makedirs disk_is_file_uptodate
            (fun _ path d => disk_write path d)
            (fun _ path _ _ _ d => disk_write path d)
            String.append sample_detail_url (fun _ g => g) (fun g => g)
            sample_settings sample_self "http://localhost"
            (mkState fresh_disk (Some line_extent) []) _ _).
  - vm_compute. reflexivity.
  - vm_compute. reflexivity.
Defined.

(** *** The other outcomes in that world *)


Lemma sample_capture_size : capture_size sample_side 800 = Ok 880%Z.
Proof.
  rewrite capture_size_positive by (exact sample_side_pos || lia).
  by rewrite sample_size.
Qed.

Lemma capture_size_near_configured_size_witness :
  (77 * 800 <= 100 * 880)%Z /\ (100 * 880 < 156 * 800 + 100)%Z.
Proof.
  apply (capture_size_near_configured_size sample_side 800 880).
  - exact sample_side_pos.
  - lia.
  - exact sample_capture_size.
Defined.

Lemma zoom_decreases_with_length_witness :
  (claimed_zoom (2 * sample_side) 800 <= claimed_zoom sample_side 800)%Z.
Proof.
  pose proof sample_side_pos as Hpos.
  apply (zoom_decreases_with_length sample_side (2 * sample_side) 800
           (claimed_zoom sample_side 800) (claimed_size sample_side 800)
           (claimed_zoom (2 * sample_side) 800)
           (claimed_size (2 * sample_side) 800)).
  - exact Hpos.
  - lra.
  - lia.
  - apply zoom_and_size_positive; [exact Hpos | lia].
  - apply zoom_and_size_positive; [lra | lia].
Defined.

Lemma placeholder_without_geometry_witness :
  sample_prepare_map_image sample_self "http://localhost"
    (mkState stale_disk None [])
  = Ok (true,
        mkState (disk_write sample_path stale_disk) None
                [ImageSave (placeholder 800) sample_path]).
Proof.
  refine (proj2 (placeholder_without_geometry
            disk_exists disk_makedirs disk_is_file_uptodate
            (fun _ path d => disk_write path d)
            (fun _ path _ _ _ d => disk_write path d)
            String.append sample_detail_url (fun _ g => g) (fun g => g)
            sample_settings sample_self "http://localhost"
            (mkState stale_disk None []) stale_disk _ _)).
  - vm_compute. reflexivity.
  - reflexivity.
Defined.

Lemma prepare_map_image_returns_witness :
  false = negb (fst (disk_is_file_uptodate sample_path
                       (Some (Latest.mkDatetime 500 (Some Latest.UTC)))
                       fresh_disk)).
Proof.
  refine (proj1 (prepare_map_image_returns
            disk_exists disk_makedirs disk_is_file_uptodate
            (fun _ path d => disk_write path d)
            (fun _ path _ _ _ d => disk_write path d)
            String.append sample_detail_url (fun _ g => g) (fun g => g)
            sample_settings sample_self "http://localhost"
            (mkState fresh_disk None []) (mkState fresh_disk None [])
            false _)).
  vm_compute. reflexivity.
Defined.

(** A configured size of zero. *)
Definition zero_settings : Settings := mkSettings "/media" 0 "date_update".

Lemma prepare_map_image_propagates_errors_witness :
  prepare_map_image disk_exists disk_makedirs disk_is_file_uptodate
    (fun _ path d => disk_write path d)
    (fun _ path _ _ _ d => disk_write path d)
    String.append sample_detail_url (fun _ g => g) (fun g => g)
    zero_settings sample_self "http://localhost"
    (mkState stale_disk (Some line_extent) [])
  = Raise ZeroDivisionError.
Proof.
  refine (proj2 (prepare_map_image_propagates_errors
            disk_exists disk_makedirs disk_is_file_uptodate
            (fun _ path d => disk_write path d)
            (fun _ path _ _ _ d => disk_write path d)
            String.append sample_detail_url (fun _ g => g) (fun g => g)
            zero_settings sample_self "http://localhost"
            (mkState stale_disk (Some line_extent) []) stale_disk line_extent
            _ _) "/dummymodel/42/" _ _ _).
  - vm_compute. reflexivity.
  - reflexivity.
  - vm_compute. reflexivity.
  - change (max_side line_extent <> 0). rewrite line_extent_side.
    pose proof sample_side_pos. lra.
  - reflexivity.
Defined.

Lemma disk_makedirs_exists (path : string) (d : Disk) :
  disk_exists path (disk_makedirs path d) = true.
Proof.
  unfold disk_exists, disk_makedirs. apply bool_decide_eq_true.
  rewrite lookup_insert_eq. eauto.
Qed.

Lemma disk_delete_gone (path : string) (d : Disk) :
  disk_exists path (base.delete path d) = false.
Proof.
  unfold disk_exists. apply bool_decide_eq_false.
  rewrite lookup_delete_eq. by intros [? ?].
Qed.

Lemma get_map_image_path_settles_witness :
  disk_exists "/media/maps" (<["/media/maps" := None]> (∅ : Disk)) = true
  /\ get_map_image_path disk_exists disk_makedirs sample_settings sample_self
       (mkState (<["/media/maps" := None]> (∅ : Disk)) (@None Extent)
                [Makedirs "/media/maps"])
     = Ok (sample_path,
           mkState (<["/media/maps" := None]> (∅ : Disk)) (@None Extent)
                   [Makedirs "/media/maps"])
  /\ @None Extent = None.
Proof.
  refine (get_map_image_path_settles disk_exists disk_makedirs sample_settings
            sample_self (mkState (∅ : Disk) (@None Extent) [])
            (mkState (<["/media/maps" := None]> (∅ : Disk)) (@None Extent)
                     [Makedirs "/media/maps"])
            sample_path _ _).
  - intros d. apply disk_makedirs_exists.
  - vm_compute. reflexivity.
Defined.

(** Deleting in that world: unlink removes the entry, and the framework
    leaves the disk alone. *)
Definition sample_delete
    : MapEntity -> @State Disk Extent -> result (unit * @State Disk Extent) :=
  MapImage.delete disk_exists disk_makedirs sample_settings
    (fun path d => base.delete path d) (fun _ st => Ok (tt, st)).

Lemma delete_removes_map_image_witness :
  exists st1 : @State Disk Extent,
    sample_delete sample_self (mkState fresh_disk None []) = Ok (tt, st1)
    /\ disk_exists sample_path (fs st1) = false.
Proof.
  destruct (delete_removes_map_image disk_exists disk_makedirs sample_settings
              (fun path d => base.delete path d) (fun _ st => Ok (tt, st))
              sample_self (mkState fresh_disk (@None Extent) [])
              (fun path d => disk_delete_gone path d))
    as (st1 & Hrun & Hgone & _).
  exists st1. split; [exact Hrun | exact Hgone].
Defined.

End MapImage.

(** ** Permission code names (models.py, lines 107-115) *)

Module Codename.

Import Entity Urls.






(** The result of [get_entity_kind_permission] is always a permission. *)
Lemma get_entity_kind_permission_ok (k perm : string) :
  get_entity_kind_permission k = Ok perm -> perm ∈ ENTITY_PERMISSIONS.
Proof.
  destruct (decide (k ∈ ENTITY_KINDS)) as [Hk | Hk].
  - rewrite (get_entity_kind_permission_kind _ Hk). intros [= <-].
    by apply claimed_permission_in.
  - rewrite (get_entity_kind_permission_other _ Hk).
    case_bool_decide; [by intros [= <-] | discriminate].
Qed.

Lemma get_entity_kind_permission_fixed (perm : string) :
  perm ∈ ENTITY_PERMISSIONS -> get_entity_kind_permission perm = Ok perm.
Proof.
  intros Hp. destruct (decide (perm ∈ ENTITY_KINDS)) as [Hk | Hk].
  - rewrite (get_entity_kind_permission_kind _ Hk). f_equal.
    revert Hk. unfold ENTITY_PERMISSIONS in Hp.
    rewrite !elem_of_cons, elem_of_nil in Hp.
    destruct Hp as [-> | [-> | [-> | [-> | [-> | [-> | []]]]]]];
      intros _; vm_compute; reflexivity.
  - rewrite (get_entity_kind_permission_other _ Hk).
    by rewrite bool_decide_eq_true_2.
Qed.

(** X1: [get_entity_kind_permission] is idempotent: the permission it
    returns for any accepted argument is accepted in turn and mapped to
    itself. *)
Theorem entity_kind_permission_idempotent (entity_kind perm : string) :
  get_entity_kind_permission entity_kind = Ok perm ->
  get_entity_kind_permission perm = Ok perm.
Proof.
  intros H. apply get_entity_kind_permission_fixed.
  by apply get_entity_kind_permission_ok with (k := entity_kind).
Qed.

Lemma entity_kind_permission_idempotent_witness :
  get_entity_kind_permission "change" = Ok "change".
Proof.
  apply (entity_kind_permission_idempotent "update" "change").
  vm_compute. reflexivity.
Defined.









End Codename.

(** ** URLs of distinct models (models.py, lines 144-154) *)

Module UrlNames.

Import Urls.

Lemma length_append (a b : string) :
  String.length (a ++ b) = (String.length a + String.length b)%nat.
Proof.
  induction a as [| c a IH]; [reflexivity |].
  change (S (String.length (a ++ b)) = S (String.length a + String.length b)).
  by rewrite IH.
Qed.

(** Two splits of one string at the same position are the same split. *)
Lemma append_split (a1 b1 a2 b2 : string) :
  (a1 ++ b1 = a2 ++ b2)%string ->
  String.length a1 = String.length a2 ->
  a1 = a2 /\ b1 = b2.
Proof.
  revert a2. induction a1 as [| c a1 IH]; intros [| c2 a2] Heq Hlen;
    try discriminate Hlen.
  - by split.
  - change (String c (a1 ++ b1) = String c2 (a2 ++ b2)) in Heq.
    injection Heq as -> Heq. injection Hlen as Hlen.
    destruct (IH a2 Heq Hlen) as [-> ->]. by split.
Qed.

Lemma layer_url_flat (o : Options) :
  get_layer_url o = layer_url_of_name (PyStr.lower (model_name o)).
Proof.
  unfold get_layer_url, layer_url_of_name. by rewrite !PyStr.append_assoc.
Qed.

Lemma datatablelist_url_flat (o : Options) :
  get_datatablelist_url o = datatablelist_url_of_name (PyStr.lower (model_name o)).
Proof.
  unfold get_datatablelist_url, datatablelist_url_of_name.
  by rewrite !PyStr.append_assoc.
Qed.

Lemma url_of_name_inj (suffix m1 m2 : string) :
  ("/api/" ++ m1 ++ "/drf/" ++ m1 ++ suffix
   = "/api/" ++ m2 ++ "/drf/" ++ m2 ++ suffix)%string ->
  m1 = m2.
Proof.
  intros Heq. pose proof (f_equal String.length Heq) as Hlen.
  rewrite !length_append in Hlen.
  apply (inj (String.append "/api/")) in Heq.
  apply append_split in Heq; [tauto |]. lia.
Qed.

(** X4: two models have the same layer URL exactly when their
    lowercased model names are the same, and likewise for the datatables
    URL; and a layer URL is never the datatables URL of any model. *)
Theorem urls_identify_the_model (o1 o2 : Options) :
  (get_layer_url o1 = get_layer_url o2 <->
     PyStr.lower (model_name o1) = PyStr.lower (model_name o2))
  /\ (get_datatablelist_url o1 = get_datatablelist_url o2 <->
     PyStr.lower (model_name o1) = PyStr.lower (model_name o2))
  /\ get_layer_url o1 <> get_datatablelist_url o2.
Proof.
  rewrite !layer_url_flat, !datatablelist_url_flat.
  unfold layer_url_of_name, datatablelist_url_of_name.
  split; [| split].
  - split; [apply url_of_name_inj | by intros ->].
  - split; [apply url_of_name_inj | by intros ->].
  - intros Heq. apply (f_equal String.length) in Heq.
    rewrite !length_append in Heq. simpl in Heq. lia.
Qed.

End UrlNames.

(** ** What [latest_updated] returns on a populated table *)

Module LatestDates.

Import Latest.

Lemma column_dated (fname : string) (r : Row) (d : datetime) :
  r !! fname = Some (Some d) -> column fname r = Some (wall_clock d).
Proof. intros H. unfold column. by rewrite H. Qed.

Lemma column_null (fname : string) (r : Row) :
  column fname r = None <-> r !! fname = None \/ r !! fname = Some None.
Proof.
  unfold column. destruct (r !! fname) as [[d |] |]; cbn; split;
    try discriminate; try tauto; intros [H | H]; discriminate H.
Qed.

Section Dates.
Variable nulls_order_largest : bool.

Abbreviation le := (column_le nulls_order_largest).
Abbreviation latest_updated' := (latest_updated nulls_order_largest).

(** The outcome on a model with the field and rows, by the date of the
    latest row. *)
Lemma latest_updated_row (fname : string) (cls : Model) :
  fname ∈ fields cls -> objects cls <> [] ->
  exists obj, obj ∈ objects cls
    /\ (forall other, other ∈ objects cls ->
          le (column fname other) (column fname obj) = true)
    /\ latest_updated' fname cls
       = Ok (match obj !! fname with
             | Some (Some d) => Some (replace_tzinfo d UTC)
             | _ => None
             end).
Proof.
  intros Hf Hrows.
  destruct (latest_some nulls_order_largest cls fname Hf Hrows)
    as (obj & Hl & Hin & Hmax).
  exists obj. split; [exact Hin |]. split; [exact Hmax |].
  unfold latest_updated. rewrite Hl. cbn [mbind result_bind].
  by rewrite get_date_update_ok.
Qed.

(** X5: when the date field exists and every object has a date, the
    result is the date of one of the objects, relabelled UTC, and no
    object has a later date. *)
Theorem latest_updated_is_maximum (fname : string) (cls : Model) :
  fname ∈ fields cls ->
  objects cls <> [] ->
  (forall r, r ∈ objects cls -> exists d, r !! fname = Some (Some d)) ->
  exists obj d,
    obj ∈ objects cls
    /\ obj !! fname = Some (Some d)
    /\ latest_updated' fname cls = Ok (Some (replace_tzinfo d UTC))
    /\ (forall r d', r ∈ objects cls -> r !! fname = Some (Some d') ->
          (wall_clock d' <= wall_clock d)%Z).
Proof.
  intros Hf Hrows Hdated.
  destruct (latest_updated_row fname cls Hf Hrows) as (obj & Hin & Hmax & Hres).
  destruct (Hdated obj Hin) as (d & Hd).
  exists obj, d. split; [exact Hin |]. split; [exact Hd |].
  split; [by rewrite Hres, Hd |].
  intros r d' Hr Hd'. specialize (Hmax r Hr).
  rewrite (column_dated _ _ _ Hd), (column_dated _ _ _ Hd') in Hmax.
  simpl in Hmax. by apply Z.leb_le.
Qed.
End Dates.

(** X6: NULL dates.  On a backend where NULL sorts above every value,
    one object without a date makes the result None whatever the other
    dates are; on a backend where NULL sorts below, objects without a date
    are passed over as soon as one object has a date. *)
Theorem latest_updated_with_null_dates (fname : string) (cls : Model)
    (r0 : Row) :
  fname ∈ fields cls ->
  r0 ∈ objects cls ->
  (column fname r0 = None -> latest_updated true fname cls = Ok None)
  /\ (forall d0, r0 !! fname = Some (Some d0) ->
        exists d, latest_updated false fname cls = Ok (Some (replace_tzinfo d UTC))
                  /\ (wall_clock d0 <= wall_clock d)%Z).
Proof.
  intros Hf Hr0.
  assert (Hrows : objects cls <> [])
    by (intros E; rewrite E in Hr0; by apply elem_of_nil in Hr0).
  split.
  - intros Hnull.
    destruct (latest_updated_row true fname cls Hf Hrows)
      as (obj & Hin & Hmax & Hres).
    specialize (Hmax r0 Hr0). rewrite Hnull in Hmax. rewrite Hres.
    destruct (column fname obj) as [w |] eqn:Hc; [discriminate Hmax |].
    apply column_null in Hc as [-> | ->]; reflexivity.
  - intros d0 Hd0.
    destruct (latest_updated_row false fname cls Hf Hrows)
      as (obj & Hin & Hmax & Hres).
    specialize (Hmax r0 Hr0). rewrite (column_dated _ _ _ Hd0) in Hmax.
    destruct (obj !! fname) as [[d |] |] eqn:Hd.
    + exists d. split; [exact Hres |].
      rewrite (column_dated _ _ _ Hd) in Hmax. simpl in Hmax.
      by apply Z.leb_le.
    + assert (Hc : column fname obj = None) by (apply column_null; by right).
      rewrite Hc in Hmax. discriminate Hmax.
    + assert (Hc : column fname obj = None) by (apply column_null; by left).
      rewrite Hc in Hmax. discriminate Hmax.
Qed.

(** X7: once an object is stored whose date comes strictly after that of
    every other object in the order of the backend, [latest_updated]
    returns that date, relabelled UTC, wherever the row sits in the
    table. *)
Theorem latest_updated_after_save (nulls_order_largest : bool)
    (fname : string) (cls : Model) (before after : list Row) (r : Row)
    (d : datetime) :
  fname ∈ fields cls ->
  objects cls = (before ++ r :: after)%list ->
  r !! fname = Some (Some d) ->
  (forall other, other ∈ (before ++ after)%list ->
     column_le nulls_order_largest (Some (wall_clock d)) (column fname other)
       = false) ->
  latest_updated nulls_order_largest fname cls
    = Ok (Some (replace_tzinfo d UTC)).
Proof.
  intros Hf Hobjs Hd Hlater.
  assert (Hrows : objects cls <> [])
    by (rewrite Hobjs; by destruct before).
  destruct (latest_updated_row nulls_order_largest fname cls Hf Hrows)
    as (obj & Hin & Hmax & Hres).
  assert (Hr : r ∈ objects cls)
    by (rewrite Hobjs; apply elem_of_app; right; apply list_elem_of_here).
  specialize (Hmax r Hr). rewrite (column_dated _ _ _ Hd) in Hmax.
  rewrite Hobjs in Hin. apply elem_of_app in Hin as [Hin | Hin].
  - rewrite Hlater in Hmax; [discriminate Hmax |].
    apply elem_of_app. by left.
  - apply elem_of_cons in Hin as [-> | Hin].
    + by rewrite Hres, Hd.
    + rewrite Hlater in Hmax; [discriminate Hmax |].
      apply elem_of_app. by right.
Qed.

Definition dated_row (t : Z) : Row :=
  <["date_update" := Some (mkDatetime t None)]> ∅.

Definition undated_row : Row := <["date_update" := None]> ∅.

Lemma latest_updated_is_maximum_witness :
  exists obj d,
    obj ∈ [dated_row 100; dated_row 250; dated_row 30]
    /\ obj !! "date_update" = Some (Some d)
    /\ latest_updated true "date_update"
         (mkModel ["date_update"] [dated_row 100; dated_row 250; dated_row 30])
       = Ok (Some (replace_tzinfo d UTC))
    /\ (forall r d', r ∈ [dated_row 100; dated_row 250; dated_row 30] ->
          r !! "date_update" = Some (Some d') ->
          (wall_clock d' <= wall_clock d)%Z).
Proof.
  apply (latest_updated_is_maximum true "date_update"
           (mkModel ["date_update"] [dated_row 100; dated_row 250; dated_row 30])).
  - apply (bool_decide_unpack _); vm_compute; exact I.
  - discriminate.
  - intros r Hr. simpl in Hr.
    repeat (apply elem_of_cons in Hr as [-> | Hr]; [eexists; reflexivity |]).
    by apply elem_of_nil in Hr.
Defined.

Lemma latest_updated_with_null_dates_witness :
  latest_updated true "date_update"
    (mkModel ["date_update"] [dated_row 100; undated_row; dated_row 250])
  = Ok None
  /\ exists d,
       latest_updated false "date_update"
         (mkModel ["date_update"] [dated_row 100; undated_row; dated_row 250])
       = Ok (Some (replace_tzinfo d UTC))
       /\ (100 <= wall_clock d)%Z.
Proof.
  split.
  - refine (proj1 (latest_updated_with_null_dates "date_update"
              (mkModel ["date_update"] [dated_row 100; undated_row; dated_row 250])
              undated_row _ _) _).
    + apply (bool_decide_unpack _); vm_compute; exact I.
    + apply list_elem_of_further, list_elem_of_here.
    + reflexivity.
  - refine (proj2 (latest_updated_with_null_dates "date_update"
              (mkModel ["date_update"] [dated_row 100; undated_row; dated_row 250])
              (dated_row 100) _ _) (mkDatetime 100 None) _).
    + apply (bool_decide_unpack _); vm_compute; exact I.
    + apply list_elem_of_here.
    + reflexivity.
Defined.

Lemma latest_updated_after_save_witness :
  latest_updated false "date_update"
    (mkModel ["date_update"] [dated_row 100; dated_row 300; undated_row])
  = Ok (Some (mkDatetime 300 (Some UTC))).
Proof.
  apply (latest_updated_after_save false "date_update"
           (mkModel ["date_update"] [dated_row 100; dated_row 300; undated_row])
           [dated_row 100] [undated_row] (dated_row 300) (mkDatetime 300 None)).
  - apply (bool_decide_unpack _); vm_compute; exact I.
  - reflexivity.
  - reflexivity.
  - intros other Hin. simpl in Hin.
    repeat (apply elem_of_cons in Hin as [-> | Hin]; [reflexivity |]).
    by apply elem_of_nil in Hin.
Defined.

(** *** The result in terms of the dates of the objects *)

(** An object without a date: the attribute is missing or NULL. *)
Definition undated (fname : string) (r : Row) : Prop :=
  r !! fname = None \/ r !! fname = Some None.

Lemma column_some (fname : string) (r : Row) (w : Z) :
  column fname r = Some w ->
  exists d, r !! fname = Some (Some d) /\ wall_clock d = w.
Proof.
  unfold column. destruct (r !! fname) as [[d |] |]; cbn; try discriminate.
  intros [= <-]. by exists d.
Qed.

Lemma logentry_latest_updated_row (nulls_order_largest : bool) (cls : Model) :
  "action_time" ∈ fields cls -> objects cls <> [] ->
  exists obj, obj ∈ objects cls
    /\ (forall other, other ∈ objects cls ->
          column_le nulls_order_largest (column "action_time" other)
                    (column "action_time" obj) = true)
    /\ logentry_latest_updated nulls_order_largest cls
       = getattr obj "action_time".
Proof.
  intros Hf Hrows.
  destruct (latest_some nulls_order_largest cls "action_time" Hf Hrows)
    as (obj & Hl & Hin & Hmax).
  exists obj. split; [exact Hin |]. split; [exact Hmax |].
  unfold logentry_latest_updated. rewrite Hl. cbn [mbind result_bind].
  unfold logentry_get_date_update, getattr.
  by destruct (obj !! "action_time").
Qed.

(** A dated row that the backend orders last is the latest of the dated
    rows. *)
Lemma last_row_is_latest_date (nulls_order_largest : bool) (fname : string)
    (cls : Model) (obj : Row) (d : datetime) :
  (forall other, other ∈ objects cls ->
     column_le nulls_order_largest (column fname other) (column fname obj)
       = true) ->
  obj !! fname = Some (Some d) ->
  forall r d', r ∈ objects cls -> r !! fname = Some (Some d') ->
               (wall_clock d' <= wall_clock d)%Z.
Proof.
  intros Hmax Hd r d' Hr Hd'. specialize (Hmax r Hr).
  rewrite (column_dated _ _ _ Hd), (column_dated _ _ _ Hd') in Hmax.
  simpl in Hmax. by apply Z.leb_le.
Qed.

(** The claim as worded fails: on a backend where NULL sorts largest, a
    table with objects dated 100 and 250 and one object without a date has
    the field and rows, yet the result is None and not the date 250. *)
Definition null_date_model : Model :=
  mkModel ["date_update"] [dated_row 100; undated_row; dated_row 250].

Lemma latest_updated_null_counterexample :
  "date_update" ∈ fields null_date_model
  /\ objects null_date_model <> []
  /\ dated_row 250 ∈ objects null_date_model
  /\ dated_row 250 !! "date_update" = Some (Some (mkDatetime 250 None))
  /\ latest_updated true "date_update" null_date_model = Ok None
  /\ ~ (exists d, latest_updated true "date_update" null_date_model
                  = Ok (Some d)).
Proof.
  assert (Hres : latest_updated true "date_update" null_date_model = Ok None)
    by (vm_compute; reflexivity).
  split; [apply list_elem_of_here |]. split; [discriminate |].
  split; [do 2 apply list_elem_of_further; apply list_elem_of_here |].
  split; [reflexivity |]. split; [exact Hres |].
  intros [d Hd]. rewrite Hres in Hd. discriminate Hd.
Qed.

(** C6 (corrected): [latest_updated] (of the mixin and of LogEntry)
    returns None, and does not raise, when the table has no rows
    (DoesNotExist) and when the date field is not a field of the model
    (FieldError).  Otherwise the mixin returns, relabelled UTC, the
    greatest update date of the objects when every object has a date, and
    also, on a backend where NULL sorts smallest, as soon as one object
    has a date; it returns None when an object has no date on a backend
    where NULL sorts largest, and when no object has a date.  The LogEntry
    variant returns the greatest action time, as stored, when every row
    has one. *)
Theorem latest_updated_none_or_latest_date (nulls_order_largest : bool)
    (fname : string) (cls : Model) :
  (objects cls = [] ->
     latest_updated nulls_order_largest fname cls = Ok None
     /\ logentry_latest_updated nulls_order_largest cls = Ok None)
  /\ (fname ∉ fields cls ->
      latest_updated nulls_order_largest fname cls = Ok None)
  /\ ("action_time" ∉ fields cls ->
      logentry_latest_updated nulls_order_largest cls = Ok None)
  /\ (fname ∈ fields cls -> objects cls <> [] ->
      ((forall r, r ∈ objects cls -> exists d, r !! fname = Some (Some d))
        \/ (nulls_order_largest = false
            /\ exists r d, r ∈ objects cls /\ r !! fname = Some (Some d)) ->
       exists obj d,
         obj ∈ objects cls
         /\ obj !! fname = Some (Some d)
         /\ (forall r d', r ∈ objects cls -> r !! fname = Some (Some d') ->
               (wall_clock d' <= wall_clock d)%Z)
         /\ latest_updated nulls_order_largest fname cls
            = Ok (Some (replace_tzinfo d UTC)))
      /\ ((nulls_order_largest = true
            /\ exists r, r ∈ objects cls /\ undated fname r)
          \/ (forall r, r ∈ objects cls -> undated fname r) ->
          latest_updated nulls_order_largest fname cls = Ok None))
  /\ ("action_time" ∈ fields cls -> objects cls <> [] ->
      (forall r, r ∈ objects cls ->
         exists d, r !! "action_time" = Some (Some d)) ->
      exists obj d,
        obj ∈ objects cls
        /\ obj !! "action_time" = Some (Some d)
        /\ (forall r d', r ∈ objects cls ->
              r !! "action_time" = Some (Some d') ->
              (wall_clock d' <= wall_clock d)%Z)
        /\ logentry_latest_updated nulls_order_largest cls = Ok (Some d)).
Proof.
  split; [| split; [| split; [| split]]].
  - intros Hrows. unfold latest_updated, logentry_latest_updated. split.
    + destruct (latest_empty nulls_order_largest cls fname Hrows)
        as [-> | ->]; reflexivity.
    + destruct (latest_empty nulls_order_largest cls "action_time" Hrows)
        as [-> | ->]; reflexivity.
  - intros Hf. unfold latest_updated. by rewrite latest_no_field.
  - intros Hf. unfold logentry_latest_updated. by rewrite latest_no_field.
  - intros Hf Hrows.
    destruct (latest_updated_row nulls_order_largest fname cls Hf Hrows)
      as (obj & Hin & Hmax & Hres).
    split.
    + intros Hdated.
      assert (Hobj : exists d, obj !! fname = Some (Some d)).
      { destruct Hdated as [Hall | [Hnl (r0 & d0 & Hr0 & Hd0)]];
          [by apply Hall |].
        specialize (Hmax r0 Hr0). rewrite (column_dated _ _ _ Hd0) in Hmax.
        destruct (column fname obj) as [w |] eqn:Hc.
        - apply column_some in Hc as (d & Hd & _). by exists d.
        - rewrite Hnl in Hmax. discriminate Hmax. }
      destruct Hobj as (d & Hd). exists obj, d.
      split; [exact Hin |]. split; [exact Hd |]. split.
      * by apply (last_row_is_latest_date nulls_order_largest fname cls obj).
      * by rewrite Hres, Hd.
    + intros Hundated. rewrite Hres.
      assert (Hobj : undated fname obj).
      { destruct Hundated as [[Hnl (r0 & Hr0 & Hu0)] | Hall]; [| by apply Hall].
        specialize (Hmax r0 Hr0).
        assert (Hc0 : column fname r0 = None) by (by apply column_null).
        rewrite Hc0, Hnl in Hmax.
        destruct (column fname obj) as [w |] eqn:Hc; [discriminate Hmax |].
        by apply column_null. }
      by destruct Hobj as [-> | ->].
  - intros Hf Hrows Hdated.
    destruct (logentry_latest_updated_row nulls_order_largest cls Hf Hrows)
      as (obj & Hin & Hmax & Hres).
    destruct (Hdated obj Hin) as (d & Hd). exists obj, d.
    split; [exact Hin |]. split; [exact Hd |]. split.
    + by apply (last_row_is_latest_date nulls_order_largest "action_time"
                  cls obj).
    + rewrite Hres. unfold getattr. by rewrite Hd.
Qed.

Lemma latest_updated_none_or_latest_date_witness :
  latest_updated true "date_update" (mkModel ["date_update"] []) = Ok None
  /\ latest_updated true "date_insert"
       (mkModel ["date_update"] [dated_row 100]) = Ok None
  /\ (exists obj d,
        obj ∈ [dated_row 100; undated_row; dated_row 250]
        /\ obj !! "date_update" = Some (Some d)
        /\ (forall r d', r ∈ [dated_row 100; undated_row; dated_row 250] ->
              r !! "date_update" = Some (Some d') ->
              (wall_clock d' <= wall_clock d)%Z)
        /\ latest_updated false "date_update"
             (mkModel ["date_update"]
                      [dated_row 100; undated_row; dated_row 250])
           = Ok (Some (replace_tzinfo d UTC)))
  /\ latest_updated true "date_update"
       (mkModel ["date_update"] [dated_row 100; undated_row; dated_row 250])
     = Ok None.
Proof.
  split; [| split; [| split]].
  - exact (proj1 (proj1 (latest_updated_none_or_latest_date true "date_update"
                           (mkModel ["date_update"] [])) eq_refl)).
  - refine (proj1 (proj2 (latest_updated_none_or_latest_date true "date_insert"
                            (mkModel ["date_update"] [dated_row 100]))) _).
    apply (bool_decide_unpack _); vm_compute; exact I.
  - refine (proj1 (proj1 (proj2 (proj2 (proj2
              (latest_updated_none_or_latest_date false "date_update"
                 (mkModel ["date_update"]
                          [dated_row 100; undated_row; dated_row 250])))))
              _ _) _).
    + apply (bool_decide_unpack _); vm_compute; exact I.
    + discriminate.
    + right. split; [reflexivity |].
      exists (dated_row 100), (mkDatetime 100 None).
      split; [apply list_elem_of_here | reflexivity].
  - refine (proj2 (proj1 (proj2 (proj2 (proj2
              (latest_updated_none_or_latest_date true "date_update"
                 (mkModel ["date_update"]
                          [dated_row 100; undated_row; dated_row 250])))))
              _ _) _).
    + apply (bool_decide_unpack _); vm_compute; exact I.
    + discriminate.
    + left. split; [reflexivity |]. exists undated_row.
      split; [apply list_elem_of_further, list_elem_of_here | by right].
Defined.

End LatestDates.

(** ** How the audit trail reacts to new log rows *)

Module AuditTrail.

Import Audit.
Local Open Scope Z_scope.

(** The additions of an object, as [creator] filters them. *)
Definition additions (db : Database) (ct : option Z) (self : MapEntity)
    : list LogEntry :=
  List.filter (entry_of_with_flag ct (text_prep_value (pk self)) ADDITION)
              (log_entries db).

(** The rows of the ordered author query. *)
Definition author_rows (db : Database) (ct : option Z) (self : MapEntity)
    : list (User * Z) :=
  remove_dups ((fun ue => (fst ue, le_pk (snd ue)))
                 <$> joined db (entry_of ct (text_prep_value (pk self)))).

Lemma creator_eval (db : Database) (self : MapEntity) (ct : option Z) :
  get_content_type_id self = Ok ct ->
  creator db self =
    match last (order_by le_pk (additions db ct self)) with
    | None => Ok None
    | Some e => u ← entry_user db e; Ok (Some u)
    end.
Proof. intros Hct. unfold creator. by rewrite Hct. Qed.

Lemma last_author_eval (db : Database) (self : MapEntity) (ct : option Z) :
  get_content_type_id self = Ok ct ->
  last_author db self
    = Ok (fst <$> last (order_by snd (author_rows db ct self))).
Proof.
  intros Hct. unfold last_author, authors. rewrite Hct.
  cbn [mbind result_bind]. unfold evaluate, order_by_logentry_pk.
  cbn [uq_where uq_distinct uq_order_by_logentry_pk].
  by rewrite fmap_last.
Qed.

Lemma get_content_type_id_raise (self : MapEntity) (e : exn) :
  get_content_type_id self = Raise e ->
  content_type_pk self = Raise e /\ e <> OperationalError.
Proof.
  unfold get_content_type_id, try_except.
  destruct (content_type_pk self) as [c | e']; cbn; [discriminate |].
  case_bool_decide as Hin; [discriminate |]. intros [= ->].
  split; [reflexivity |]. intros ->. apply Hin. apply list_elem_of_here.
Qed.

(** A row that fails the condition leaves the filtered table as it
    was, wherever it is inserted. *)
Lemma filter_insert_rejected {A : Type} (cond : A -> bool) (l1 l2 : list A)
    (x : A) :
  cond x = false ->
  List.filter cond (l1 ++ x :: l2)%list = List.filter cond (l1 ++ l2)%list.
Proof.
  intros Hx. rewrite !List.filter_app. simpl. by rewrite Hx.
Qed.


(** X8: a log row that is not an ADDITION of the object (another action,
    another object or another content type) does not change [creator],
    wherever it is inserted in the table. *)
Theorem creator_ignores_other_rows (us : list User) (l1 l2 : list LogEntry)
    (e : LogEntry) (self : MapEntity) :
  (forall ct, get_content_type_id self = Ok ct ->
     ~ (le_content_type_id e = ct
        /\ le_object_id e = text_prep_value (pk self)
        /\ le_action_flag e = ADDITION)) ->
  creator (mkDatabase us (l1 ++ e :: l2)%list) self
    = creator (mkDatabase us (l1 ++ l2)%list) self.
Proof.
  intros Hother. unfold creator.
  destruct (get_content_type_id self) as [ct | err] eqn:Hct; [| reflexivity].
  cbn [mbind result_bind log_entries].
  rewrite filter_insert_rejected; [reflexivity |].
  apply not_true_is_false. rewrite entry_of_with_flag_true. by apply Hother.
Qed.



Lemma elem_of_author_rows (db : Database) (ct : option Z) (self : MapEntity)
    (u : User) (k : Z) :
  (u, k) ∈ author_rows db ct self <->
  exists e, k = le_pk e /\ u ∈ users db /\ e ∈ log_entries db
            /\ le_user_id e = user_id u
            /\ le_content_type_id e = ct
            /\ le_object_id e = text_prep_value (pk self).
Proof.
  unfold author_rows. rewrite elem_of_ordered_rows. split.
  - intros (e & Hk & Hin). exists e. split; [exact Hk |].
    apply elem_of_joined in Hin as (Hu & He & Hid & Hc).
    apply entry_of_true in Hc. tauto.
  - intros (e & Hk & Hu & He & Hid & Hct & Hoid). exists e.
    split; [exact Hk |]. apply elem_of_joined.
    split; [exact Hu |]. split; [exact He |]. split; [exact Hid |].
    by apply entry_of_true.
Qed.

(** The last row of the ordered author query, when there is one, and the
    emptiness of the query otherwise. *)
Lemma last_author_rows (db : Database) (ct : option Z) (self : MapEntity) :
  match last (order_by snd (author_rows db ct self)) with
  | Some (u, k) =>
      (u, k) ∈ author_rows db ct self
      /\ forall u' k', (u', k') ∈ author_rows db ct self -> k' <= k
  | None => author_rows db ct self = []
  end.
Proof.
  destruct (last _) as [[u k] |] eqn:Hlast.
  - apply order_by_last_Some in Hlast as [Hin Hmax]. split; [exact Hin |].
    intros u' k' Hin'. exact (Hmax (u', k') Hin').
  - by apply order_by_last_None in Hlast.
Qed.


(** X11: whoever [creator] returns is one of the [authors]. *)
Theorem creator_is_an_author (db : Database) (self : MapEntity) (u : User) :
  creator db self = Ok (Some u) ->
  exists q, authors self = Ok q /\ u ∈ evaluate db q.
Proof.
  intros Hcreator.
  destruct (get_content_type_id self) as [ct | err] eqn:Hct.
  - rewrite (creator_eval db self ct Hct) in Hcreator.
    destruct (last _) as [e |] eqn:Hlast; [| discriminate Hcreator].
    apply order_by_last_Some in Hlast as [Hin _].
    apply elem_of_additions in Hin as [(He & Hect & Heoid) _].
    unfold entry_user in Hcreator.
    destruct (List.find _ (users db)) as [u0 |] eqn:Hfind;
      [| discriminate Hcreator].
    cbn in Hcreator. injection Hcreator as ->.
    apply find_some in Hfind as [Hu Hid]. apply bool_decide_eq_true in Hid.
    unfold authors. rewrite Hct. cbn [mbind result_bind].
    eexists. split; [reflexivity |]. unfold evaluate.
    cbn [uq_where uq_distinct uq_order_by_logentry_pk].
    apply elem_of_distinct_authors. split; [by apply list_elem_of_In |].
    exists e. split; [exact He |]. split; [by symmetry |].
    by apply entry_of_true.
  - unfold creator in Hcreator. rewrite Hct in Hcreator. discriminate Hcreator.
Qed.


(** X13: a failure of the content type lookup other than
    OperationalError is raised unchanged by [creator], [authors] and
    [last_author]; on OperationalError the content type is None, and as
    long as every log row has a content type [creator] is None, and so is
    [last_author] for a saved object (one with a primary key, so that
    the lookup on the object id keeps the join an inner join). *)
Theorem content_type_lookup_failure (db : Database) (self : MapEntity)
    (err : exn) :
  content_type_pk self = Raise err ->
  (err <> OperationalError ->
     creator db self = Raise err
     /\ authors self = Raise err
     /\ last_author db self = Raise err)
  /\ (err = OperationalError ->
      (forall row, row ∈ log_entries db -> le_content_type_id row <> None) ->
      creator db self = Ok None
      /\ (pk self <> None -> last_author db self = Ok None)).
Proof.
  intros Hpk. split.
  - intros Hne.
    assert (Hct : get_content_type_id self = Raise err).
    { unfold get_content_type_id, try_except. rewrite Hpk. cbn.
      rewrite bool_decide_eq_false_2; [reflexivity |].
      intros Hin. apply list_elem_of_singleton in Hin. contradiction. }
    unfold creator, last_author, authors. by rewrite Hct.
  - intros -> Hrows.
    assert (Hct : get_content_type_id self = Ok None)
      by (unfold get_content_type_id, try_except; by rewrite Hpk).
    split.
    + rewrite (creator_eval db self None Hct).
      destruct (last _) as [e |] eqn:Hlast; [| reflexivity].
      apply order_by_last_Some in Hlast as [Hin _].
      apply elem_of_additions in Hin as [(He & Hect & _) _].
      by destruct (Hrows e He).
    + intros _. rewrite (last_author_eval db self None Hct).
      pose proof (last_author_rows db None self) as Hlast.
      destruct (last _) as [[u k] |]; [| reflexivity].
      destruct Hlast as [Hin _].
      apply elem_of_author_rows in Hin as (e & _ & _ & He & _ & Hect & _).
      by destruct (Hrows e He).
Qed.

(** *** The sample log again *)

Definition row10 : LogEntry := mkLogEntry 10 1 (Some 7) (Some "42") ADDITION.
Definition row11 : LogEntry := mkLogEntry 11 2 (Some 7) (Some "42") CHANGE.

Lemma creator_ignores_other_rows_witness :
  creator (mkDatabase [mary; john] [row10; row11]) sample_object
  = creator (mkDatabase [mary; john] [row10]) sample_object.
Proof.
  apply (creator_ignores_other_rows [mary; john] [row10] [] row11 sample_object).
  intros ct _ (_ & _ & Hflag). discriminate Hflag.
Defined.



Lemma creator_is_an_author_witness :
  exists q, authors sample_object = Ok q /\ mary ∈ evaluate sample_db q.
Proof.
  apply (creator_is_an_author sample_db sample_object mary).
  vm_compute. reflexivity.
Defined.




Lemma content_type_lookup_failure_witness :
  creator sample_db (mkMapEntity (Some 42) (Raise OperationalError)) = Ok None
  /\ last_author sample_db (mkMapEntity (Some 42) (Raise OperationalError))
     = Ok None
  /\ creator sample_db (mkMapEntity (Some 42) (Raise DoesNotExist))
     = Raise DoesNotExist.
Proof.
  split; [| split].
  - refine (proj1 (proj2 (content_type_lookup_failure sample_db
              (mkMapEntity (Some 42) (Raise OperationalError))
              OperationalError eq_refl) eq_refl _)).
    intros row Hin. simpl in Hin.
    repeat (apply elem_of_cons in Hin as [-> | Hin]; [discriminate |]).
    by apply elem_of_nil in Hin.
  - refine (proj2 (proj2 (content_type_lookup_failure sample_db
              (mkMapEntity (Some 42) (Raise OperationalError))
              OperationalError eq_refl) eq_refl _) _).
    + intros row Hin. simpl in Hin.
      repeat (apply elem_of_cons in Hin as [-> | Hin]; [discriminate |]).
      by apply elem_of_nil in Hin.
    + discriminate.
  - refine (proj1 (proj1 (content_type_lookup_failure sample_db
              (mkMapEntity (Some 42) (Raise DoesNotExist))
              DoesNotExist eq_refl) _)).
    discriminate.
Defined.

End AuditTrail.

(** ** One image file per object (models.py, lines 230-234) *)

Module ImagePath.

Import MapImage.

(** No digit string starts with the letter N. *)
Lemma pretty_N_go_head (x : N) (s : string) :
  (forall rest, s <> String "N" rest) ->
  forall rest, pretty_N_go x s <> String "N" rest.
Proof.
  revert s. induction (N.lt_wf_0 x) as [x _ IH]; intros s Hs.
  assert (x = 0 \/ 0 < x)%N as [-> | Hpos] by lia.
  - by rewrite pretty_N_go_0.
  - rewrite pretty_N_go_step by done. apply IH.
    + by apply N.div_lt.
    + intros rest. unfold pretty_N_char.
      repeat case_match; discriminate.
Qed.

Lemma pretty_Z_not_None (n : Z) : pretty n <> "None".
Proof.
  destruct n as [| p | p].
  - discriminate.
  - change (pretty (Z.pos p)) with (pretty_N_go (N.pos p) "").
    apply pretty_N_go_head. discriminate.
  - discriminate.
Qed.

Lemma str_pk_inj (pk1 pk2 : option Z) : str_pk pk1 = str_pk pk2 -> pk1 = pk2.
Proof.
  destruct pk1 as [n1 |], pk2 as [n2 |]; simpl; intros H.
  - f_equal. by apply (inj pretty).
  - by destruct (pretty_Z_not_None n1).
  - by destruct (pretty_Z_not_None n2).
  - reflexivity.
Qed.

Lemma append_cancel_r (a b suffix : string) :
  (a ++ suffix = b ++ suffix)%string -> a = b.
Proof.
  intros H. pose proof (f_equal String.length H) as Hlen.
  rewrite !UrlNames.length_append in Hlen.
  apply UrlNames.append_split in H; [tauto | lia].
Qed.

(** The file name starts with the first character of the model name, or
    with the dash when the model name is empty. *)
Definition first_char (m : string) : ascii :=
  match m with
  | EmptyString => "-"%char
  | String c _ => c
  end.

Lemma file_name_head (m s : string) :
  exists rest, (((m ++ "-") ++ s) ++ ".png")%string = String (first_char m) rest.
Proof. destruct m as [| c m]; eexists; reflexivity. Qed.

Lemma os_path_join_inj (a : string) (c : ascii) (r1 r2 : string) :
  os_path_join a (String c r1) = os_path_join a (String c r2) -> r1 = r2.
Proof.
  unfold os_path_join.
  destruct (Ascii.eqb c "/") eqn:Hc.
  - apply Ascii.eqb_eq in Hc as ->. by intros [= ->].
  - assert (Hgen : forall r,
              match String c r with
              | String "/" _ => String c r
              | _ => match a with
                     | EmptyString => String c r
                     | _ => if ends_with_sep a then (a ++ String c r)%string
                            else ((a ++ "/") ++ String c r)%string
                     end
              end
              = match a with
                | EmptyString => String c r
                | _ => if ends_with_sep a then (a ++ String c r)%string
                       else ((a ++ "/") ++ String c r)%string
                end).
    { intros r. destruct c as [[] [] [] [] [] [] [] []]; try reflexivity.
      discriminate Hc. }
    rewrite !Hgen. destruct a as [| a0 a']; [by intros [= ->] |].
    destruct (ends_with_sep (String a0 a')); intros H;
      apply (inj (String.append _)) in H; by injection H.
Qed.

(** X23: two objects of the same model have the same image path exactly
    when they have the same primary key; in particular objects with
    different keys never share an image file, while all unsaved objects
    (key None) share one. *)
Theorem map_image_path_identifies_pk (settings : Settings)
    (self1 self2 : MapEntity) :
  model_name self1 = model_name self2 ->
  (map_image_path settings self1 = map_image_path settings self2
   <-> pk self1 = pk self2).
Proof.
  intros Hmodel. unfold map_image_path. rewrite Hmodel. split.
  - intros Hpath.
    destruct (file_name_head (model_name self2) (str_pk (pk self1)))
      as (r1 & Hr1).
    destruct (file_name_head (model_name self2) (str_pk (pk self2)))
      as (r2 & Hr2).
    rewrite Hr1, Hr2 in Hpath. apply os_path_join_inj in Hpath.
    assert (Hname : ((((model_name self2 ++ "-") ++ str_pk (pk self1))
                       ++ ".png")
                     = (((model_name self2 ++ "-") ++ str_pk (pk self2))
                       ++ ".png"))%string)
      by (by rewrite Hr1, Hr2, Hpath).
    apply append_cancel_r in Hname.
    apply (inj (String.append _)) in Hname. by apply str_pk_inj.
  - by intros ->.
Qed.

Lemma map_image_path_identifies_pk_witness :
  map_image_path sample_settings (mkMapEntity "dummymodel" (Some 42%Z) ∅ None)
    = map_image_path sample_settings
        (mkMapEntity "dummymodel" (Some 42%Z) ∅ (Some "context"))
  /\ (map_image_path sample_settings (mkMapEntity "dummymodel" (Some 42%Z) ∅ None)
      = map_image_path sample_settings (mkMapEntity "dummymodel" None ∅ None)
      -> Some 42%Z = @None Z).
Proof.
  split.
  - apply (proj2 (map_image_path_identifies_pk sample_settings
                    (mkMapEntity "dummymodel" (Some 42%Z) ∅ None)
                    (mkMapEntity "dummymodel" (Some 42%Z) ∅ (Some "context"))
                    eq_refl)).
    reflexivity.
  - apply (proj1 (map_image_path_identifies_pk sample_settings
                    (mkMapEntity "dummymodel" (Some 42%Z) ∅ None)
                    (mkMapEntity "dummymodel" None ∅ None) eq_refl)).
Defined.

End ImagePath.

(** ** Display of a log entry (models.py, lines 287-293) *)

Module LogEntryDisplay.

Import Audit.

(** The dict of [action_flag_display]; the labels are the message ids
    handed to the translation. *)
Definition action_labels : gmap Z string :=
  <[DELETION := "Deleted"]> (<[CHANGE := "Changed"]> (<[ADDITION := "Added"]> ∅)).

(** [LogEntry.action_flag_display]: subscripting raises KeyError for a
    flag that is not a key. *)
Definition action_flag_display (self : LogEntry) : result string :=
  match action_labels !! le_action_flag self with
  | Some label => Ok label
  | None => Raise KeyError
  end.

(** X14: [action_flag_display] gives a label exactly for the three flags
    ADDITION, CHANGE and DELETION, a different label for each, and raises
    KeyError for a log entry with any other flag. *)
Theorem action_flag_display_total_on_known_flags (e1 e2 : LogEntry) :
  (le_action_flag e1 ∈ [ADDITION; CHANGE; DELETION] <->
     exists label, action_flag_display e1 = Ok label)
  /\ ((le_action_flag e1 ∉ [ADDITION; CHANGE; DELETION]) <->
     action_flag_display e1 = Raise KeyError)
  /\ (forall label, action_flag_display e1 = Ok label ->
        action_flag_display e2 = Ok label ->
        le_action_flag e1 = le_action_flag e2).
Proof.
  assert (Hcases : forall e,
            (le_action_flag e = ADDITION /\ action_flag_display e = Ok "Added")
            \/ (le_action_flag e = CHANGE /\ action_flag_display e = Ok "Changed")
            \/ (le_action_flag e = DELETION
                /\ action_flag_display e = Ok "Deleted")
            \/ ((le_action_flag e ∉ [ADDITION; CHANGE; DELETION])
                /\ action_flag_display e = Raise KeyError)).
  { intros e. unfold action_flag_display, action_labels.
    destruct (decide (le_action_flag e = DELETION)) as [-> | Hd];
      [right; right; left; by rewrite lookup_insert_eq |].
    rewrite lookup_insert_ne by done.
    destruct (decide (le_action_flag e = CHANGE)) as [-> | Hc];
      [right; left; by rewrite lookup_insert_eq |].
    rewrite lookup_insert_ne by done.
    destruct (decide (le_action_flag e = ADDITION)) as [-> | Ha];
      [left; by rewrite lookup_insert_eq |].
    rewrite lookup_insert_ne by done. rewrite lookup_empty.
    right; right; right. split; [| reflexivity].
    rewrite !not_elem_of_cons. repeat split; try done. apply not_elem_of_nil. }
  assert (Hknown : forall e label,
            action_flag_display e = Ok label ->
            le_action_flag e ∈ [ADDITION; CHANGE; DELETION]).
  { intros e label H.
    destruct (Hcases e) as [[E _] | [[E _] | [[E _] | [_ R]]]].
    - rewrite E. apply list_elem_of_here.
    - rewrite E. apply list_elem_of_further, list_elem_of_here.
    - rewrite E. do 2 apply list_elem_of_further. apply list_elem_of_here.
    - rewrite R in H. discriminate H. }
  split; [| split].
  - split.
    + intros Hin.
      destruct (Hcases e1) as [[_ R] | [[_ R] | [[_ R] | [Hn _]]]];
        eauto; contradiction.
    + intros [label H]. by apply Hknown with (label := label).
  - split.
    + intros Hn.
      destruct (Hcases e1) as [[E _] | [[E _] | [[E _] | [_ R]]]];
        [exfalso; apply Hn; rewrite E .. | exact R].
      * apply list_elem_of_here.
      * apply list_elem_of_further, list_elem_of_here.
      * do 2 apply list_elem_of_further. apply list_elem_of_here.
    + intros H Hin.
      destruct (Hcases e1) as [[_ R] | [[_ R] | [[_ R] | [Hn _]]]];
        try (rewrite R in H; discriminate H). contradiction.
  - intros label H1 H2.
    destruct (Hcases e1) as [[E1 R1] | [[E1 R1] | [[E1 R1] | [_ R1]]]];
      destruct (Hcases e2) as [[E2 R2] | [[E2 R2] | [[E2 R2] | [_ R2]]]];
      rewrite R1 in H1; rewrite R2 in H2;
      try discriminate H1; try discriminate H2;
      try (rewrite E1, E2; reflexivity);
      injection H1 as <-; discriminate H2.
Qed.

Lemma action_flag_display_total_on_known_flags_witness :
  (exists label,
     action_flag_display (mkLogEntry 11 2 (Some 7%Z) (Some "42") CHANGE)
       = Ok label)
  /\ action_flag_display (mkLogEntry 11 2 (Some 7%Z) (Some "42") 4)
     = Raise KeyError.
Proof.
  split.
  - apply (proj1 (proj1 (action_flag_display_total_on_known_flags
                           (mkLogEntry 11 2 (Some 7%Z) (Some "42") CHANGE)
                           (mkLogEntry 11 2 (Some 7%Z) (Some "42") CHANGE)))).
    apply (bool_decide_unpack _); vm_compute; exact I.
  - apply (proj1 (proj1 (proj2 (action_flag_display_total_on_known_flags
                                  (mkLogEntry 11 2 (Some 7%Z) (Some "42") 4)
                                  (mkLogEntry 11 2 (Some 7%Z) (Some "42") 4))))).
    apply (bool_decide_unpack _); vm_compute; exact I.
Defined.

End LogEntryDisplay.
